(** * Verification of the accident-data downloader (src/proj_1/download.py)

    Shallow embedding of the class [DataDownloader]: the archive-name
    regular expression [re_zip] (with a small backtracking matcher that
    follows Python's [re] priorities), the version selector
    [__get_latest_zip_urls], the per-column converter and the CSV parser
    [__parse_zip_file], the three-tier cache [__get_region_data],
    [parse_region_data] and [get_list]; and its caller
    [get_accidents_count] of src/proj_1/get_stat.py. *)

From Stdlib Require Import String Ascii List Bool Arith Lia ZArith.
From stdpp Require Import base gmap strings.
Import ListNotations.
Open Scope string_scope.
Open Scope list_scope.

(* ------------------------------------------------------------------ *)
(** ** Characters and strings *)

(** Python compares [str] values code point by code point. *)
Fixpoint lex_ltb (a b : list ascii) : bool :=
  match a, b with
  | [], [] => false
  | [], _ :: _ => true
  | _ :: _, [] => false
  | x :: a', y :: b' =>
      if (nat_of_ascii x <? nat_of_ascii y)%nat then true
      else if (nat_of_ascii y <? nat_of_ascii x)%nat then false
      else lex_ltb a' b'
  end.

(** [a < b] on Python strings. *)
Definition str_ltb (a b : string) : bool :=
  lex_ltb (list_ascii_of_string a) (list_ascii_of_string b).

Definition ascii_eqb (a b : ascii) : bool := Ascii.eqb a b.

(* ------------------------------------------------------------------ *)
(** ** A backtracking matcher for the regular expressions of the module *)

Module Regex.

(** Regular expressions as far as [re_zip] needs them.  [RStar p] is the
    greedy [p*] over a single character class (Python's [.*]); [RAlt r1 r2]
    tries [r1] first; [RGroup n r] is the capturing group number [n];
    [RBol] is [^]. *)
Inductive regex : Type :=
| RChar (p : ascii -> bool)
| RSeq (r1 r2 : regex)
| RAlt (r1 r2 : regex)
| REps
| RStar (p : ascii -> bool)
| RGroup (n : nat) (r : regex)
| RBol.

(** Captured groups, most recent capture first. *)
Definition caps := list (nat * list ascii).

Fixpoint cap_lookup (n : nat) (cs : caps) : option (list ascii) :=
  match cs with
  | [] => None
  | (g, v) :: cs' => if Nat.eqb g n then Some v else cap_lookup n cs'
  end.

Section Matcher.
Context {R : Type}.

(** Greedy repetition: consume as many characters as the class allows,
    then give them back one at a time until the continuation succeeds. *)
Fixpoint star (p : ascii -> bool) (s : list ascii)
    (k : list ascii -> option R) : option R :=
  match s with
  | [] => k []
  | c :: s' =>
      if p c then
        match star p s' k with
        | Some r => Some r
        | None => k s
        end
      else k s
  end.

(** [m r n0 s cs k]: match [r] at the suffix [s] of a subject of length
    [n0], with captures [cs]; [k] is the rest of the match. The first
    success in Python's priority order is returned. *)
Fixpoint m (r : regex) (n0 : nat) (s : list ascii) (cs : caps)
    (k : list ascii -> caps -> option R) : option R :=
  match r with
  | RChar p =>
      match s with
      | c :: s' => if p c then k s' cs else None
      | [] => None
      end
  | RSeq r1 r2 => m r1 n0 s cs (fun s1 cs1 => m r2 n0 s1 cs1 k)
  | RAlt r1 r2 =>
      match m r1 n0 s cs k with
      | Some x => Some x
      | None => m r2 n0 s cs k
      end
  | REps => k s cs
  | RStar p => star p s (fun s1 => k s1 cs)
  | RGroup g r1 =>
      m r1 n0 s cs (fun s1 cs1 =>
        k s1 ((g, firstn (length s - length s1) s) :: cs1))
  | RBol => if Nat.eqb (length s) n0 then k s cs else None
  end.
End Matcher.

(** A match object: its groups; group 0 is the whole matched text. *)
Definition match_obj := caps.

Definition finish (s : list ascii) (s1 : list ascii) (cs : caps)
    : option match_obj :=
  Some ((0, firstn (length s - length s1) s) :: cs).

(** [pattern.match(subject)]: a match at position 0 only. *)
Definition re_match (r : regex) (subj : string) : option match_obj :=
  let s := list_ascii_of_string subj in
  m r (length s) s [] (finish s).

(** [pattern.search(subject)]: the leftmost position where [r] matches. *)
Fixpoint search_from (r : regex) (n0 : nat) (s : list ascii)
    : option match_obj :=
  match m r n0 s [] (finish s) with
  | Some x => Some x
  | None =>
      match s with
      | [] => None
      | _ :: s' => search_from r n0 s'
      end
  end.

Definition re_search (r : regex) (subj : string) : option match_obj :=
  let s := list_ascii_of_string subj in
  search_from r (length s) s.

(** [match.group(n)]: [None] when the group did not participate. *)
Definition group (mo : match_obj) (n : nat) : option string :=
  option_map string_of_list_ascii (cap_lookup n mo).

(** Groups 0 and 2 of [re_zip] always participate in a match. *)
Definition group_s (mo : match_obj) (n : nat) : string :=
  match group mo n with Some v => v | None => "" end.

(** Character classes and literals. *)
Definition dot (c : ascii) : bool := negb (ascii_eqb c "010"%char).
Definition is_digit (c : ascii) : bool :=
  (48 <=? nat_of_ascii c)%nat && (nat_of_ascii c <=? 57)%nat.
Definition is_01 (c : ascii) : bool :=
  ascii_eqb c "0"%char || ascii_eqb c "1"%char.

Fixpoint lit_l (w : list ascii) : regex :=
  match w with
  | [] => REps
  | c :: w' => RSeq (RChar (ascii_eqb c)) (lit_l w')
  end.
Definition lit (w : string) : regex := lit_l (list_ascii_of_string w).

Definition digit : regex := RChar is_digit.

End Regex.

Import Regex.

(* ------------------------------------------------------------------ *)
(** ** [re_zip = re.compile(r'^.*datagis.*([0-1]\d-|-rok-)?(\d{4})\.zip')] *)

(** [([0-1]\d-|-rok-)] *)
Definition re_tag : regex :=
  RAlt (RSeq (RChar is_01) (RSeq digit (RChar (ascii_eqb "-"%char))))
       (lit "-rok-").

(** [(\d{4})\.zip] *)
Definition re_year_zip : regex :=
  RSeq (RGroup 2 (RSeq digit (RSeq digit (RSeq digit digit)))) (lit ".zip").

(** [.*([0-1]\d-|-rok-)?(\d{4})\.zip] *)
Definition re_tail : regex :=
  RSeq (RStar dot) (RSeq (RAlt (RGroup 1 re_tag) REps) re_year_zip).

Definition re_zip : regex :=
  RSeq RBol (RSeq (RStar dot) (RSeq (lit "datagis") re_tail)).

(* ------------------------------------------------------------------ *)
(** ** [DataDownloader.__get_latest_zip_urls] *)

(** Python truthiness of [match.group(1)]: [None] and [''] are false. *)
Definition truthy (o : option string) : bool :=
  match o with Some v => negb (String.eqb v "") | None => false end.

(** The generator, as the list of the values it yields; [links] are the
    [href] attributes of the scraped anchors, in order. *)
Fixpoint latest_zip_urls_from (links : list string)
    (last_match : option match_obj) : list string :=
  match links with
  | [] =>
      match last_match with
      | Some lm => [group_s lm 0]
      | None => []
      end
  | link :: rest =>
      match re_search re_zip link with
      | None => latest_zip_urls_from rest last_match
      | Some mt =>
          match last_match with
          | None => latest_zip_urls_from rest (Some mt)
          | Some lm =>
              let yielded :=
                if str_ltb (group_s lm 2) (group_s mt 2) then
                  if truthy (group lm 1) && truthy (group mt 1)
                     && str_ltb (group_s mt 1) (group_s lm 1)
                  then [group_s lm 0]
                  else if str_ltb (group_s mt 0) (group_s lm 0)
                  then [group_s lm 0]
                  else []
                else [] in
              yielded ++ latest_zip_urls_from rest (Some mt)
          end
      end
  end.

Definition get_latest_zip_urls (links : list string) : list string :=
  latest_zip_urls_from links None.

(** The selector with the period-tag branch removed: every emit decision
    is the whole-string comparison. *)
Fixpoint whole_string_urls_from (links : list string)
    (last_match : option match_obj) : list string :=
  match links with
  | [] =>
      match last_match with
      | Some lm => [group_s lm 0]
      | None => []
      end
  | link :: rest =>
      match re_search re_zip link with
      | None => whole_string_urls_from rest last_match
      | Some mt =>
          match last_match with
          | None => whole_string_urls_from rest (Some mt)
          | Some lm =>
              (if str_ltb (group_s lm 2) (group_s mt 2)
                  && str_ltb (group_s mt 0) (group_s lm 0)
               then [group_s lm 0] else [])
              ++ whole_string_urls_from rest (Some mt)
          end
      end
  end.

(** The tie-break the spec describes for two same-year candidates that
    both carry a period tag: the one with the lexicographically smaller
    tag is emitted. *)
Definition spec_tiebreak (tag_a a tag_b b : string) : string :=
  if str_ltb tag_b tag_a then b else a.

(* ------------------------------------------------------------------ *)
(** ** The static tables of [DataDownloader] *)

(** Column dtypes of [DataDownloader.types]: ['U<n>'], ['int8'], ['int16']. *)
Inductive dtype : Type := U (n : nat) | Int8 | Int16.

Definition dtype_eqb (a b : dtype) : bool :=
  match a, b with
  | U n, U n' => Nat.eqb n n'
  | Int8, Int8 | Int16, Int16 => true
  | _, _ => false
  end.

(** ['U' in t] *)
Definition is_U (t : dtype) : bool := match t with U _ => true | _ => false end.

Definition types : list dtype :=
  [ U 12; Int8; U 3; U 10; Int8; U 5;
    Int8; Int8; Int8; Int8; Int8; Int8;
    Int16; Int8; Int8; Int8; Int16; Int8;
    Int8; Int8; Int8; Int8; Int8; Int8;
    Int8; Int8; Int8; Int8; Int8; Int8;
    Int8; Int8; Int8; Int8; Int8; Int8;
    Int8; Int8; Int8; Int8; Int8; Int16;
    Int8; Int8; Int8; U 16; U 16; U 16; U 16;
    U 16; U 16; U 50; U 25; U 16; U 20; U 16;
    U 16; U 16; U 20; U 16; U 6; U 6; U 20; U 20 ].

Definition header : list string :=
  [ "ID"; "Druh komunikace"; "Cislo komunikace";
    "Datum"; "Den"; "Cas"; "Druh nehody";
    "Druh srazky"; "Druh prekazky"; "Charakter";
    "Zavineni"; "Alkohol pritomen"; "Hlavni priciny";
    "Usmrceno osob"; "Tezce zraneno osob"; "Lehce zraneno osob";
    "Celkova skoda"; "Druh povrchu"; "Stav povrchu"; "Stav komunikace";
    "Povetrnostni podminky"; "Viditelnost"; "Rozhledove pomery";
    "Deleni komunikace"; "Situovani"; "Rizeni provozu";
    "Mistni uprava"; "Specificka mista"; "Smerove pomery"; "Pocet vozidel";
    "Misto nehody"; "Druh krizujici komunikace"; "Druh vozidla";
    "Vyrobni znacka vozidla"; "Rok vyroby"; "Charakteristika vozidla";
    "Smyk"; "Vozidlo po nehode"; "Unik hmot"; "Zpusob vyprosteni";
    "Smer jizdy vozidla"; "Skoda na vozidle";
    "Kategorie ridice"; "Stav ridice"; "Vnejsi ovlivneni ridice";
    "a"; "b"; "d"; "e"; "f"; "g"; "h"; "i"; "j"; "k"; "l"; "n";
    "o"; "p"; "q"; "r"; "s"; "t"; "Lokalita"; "Region" ].

Definition region_file : list (string * string) :=
  [ ("PHA", "00.csv"); ("STC", "01.csv"); ("JHC", "02.csv");
    ("PLK", "03.csv"); ("ULK", "04.csv"); ("HHK", "05.csv");
    ("JHM", "06.csv"); ("MSK", "07.csv"); ("OLK", "14.csv");
    ("ZLK", "15.csv"); ("VYS", "16.csv"); ("PAK", "17.csv");
    ("LBK", "18.csv"); ("KVK", "19.csv") ].

(** [region_file[region]], [None] standing for a [KeyError]. *)
Fixpoint assoc_get {V} (k : string) (l : list (string * V)) : option V :=
  match l with
  | [] => None
  | (k', v) :: l' => if String.eqb k' k then Some v else assoc_get k l'
  end.

(* ------------------------------------------------------------------ *)
(** ** [converter(idx)] of [__parse_zip_file] *)

Definition quote_char : ascii := "034"%char.

(** [data.replace('<quote>', '').replace(',', '.')] *)
Definition strip_field (data : string) : string :=
  string_of_list_ascii
    (map (fun c => if ascii_eqb c ","%char then "."%char else c)
       (List.filter (fun c => negb (ascii_eqb c quote_char))
          (list_ascii_of_string data))).

(** [types[idx]]; [idx] ranges over [arange(0, 64)]. *)
Definition type_at (idx : nat) : dtype := nth idx types (U 0).

Definition converter (idx : nat) (data0 : string) : string :=
  let data := strip_field data0 in
  if dtype_eqb (type_at idx) Int8 && String.eqb data "XX" then "0"
  else if String.eqb data "" then (if is_U (type_at idx) then "" else "0")
  else data.

(* ------------------------------------------------------------------ *)
(** ** Python values, the folder and the instance state *)

(** NumPy arrays of strings, as [genfromtxt] and [concatenate] build them:
    one-dimensional, or two-dimensional as the list of its rows. *)
Inductive arr : Type :=
| A1 (xs : list string)
| A2 (rows : list (list string)).

(** What [parse_region_data] returns and [pickle] stores: [None] or
    [(header, data)]. *)
Inductive pyval : Type :=
| PyNone
| PyPair (h : list string) (a : arr).

(** A file of the data folder: a zip archive (its entries, each the lines
    of the CSV text, decoded from cp1250) or a pickled cache artifact. *)
Inductive file : Type :=
| FZip (entries : list (string * list string))
| FCache (v : pyval).

Inductive exn : Type :=
| KeyError (key : string)
| ValueError (msg : string)
| TypeError (msg : string)
| IndexError (msg : string)
| OverflowError (msg : string)
| FileNotFoundError (name : string)
| BadZipFile (name : string)
| UnpicklingError (name : string).

(** The instance [self] together with the part of the world it touches:
    whether the folder exists, the folder's files in [os.listdir] order,
    [self.__mem_data] and the warnings logged. *)
Record state : Type := mkState {
  folder_exists : bool;
  files : list (string * file);
  mem_data : gmap string pyval;
  log : list string
}.

Fixpoint file_at (name : string) (fs : list (string * file)) : option file :=
  match fs with
  | [] => None
  | (n, f) :: fs' => if String.eqb n name then Some f else file_at name fs'
  end.

(** Opening a file for writing replaces it, or adds it to the folder. *)
Fixpoint write_file (name : string) (f : file) (fs : list (string * file))
    : list (string * file) :=
  match fs with
  | [] => [(name, f)]
  | (n, g) :: fs' =>
      if String.eqb n name then (n, f) :: fs' else (n, g) :: write_file name f fs'
  end.

(* ------------------------------------------------------------------ *)
(** ** A state and exception monad *)

Definition M (A : Type) : Type := state -> state * (exn + A).

Definition ret {A} (a : A) : M A := fun s => (s, inr a).
Definition bind {A B} (x : M A) (f : A -> M B) : M B :=
  fun s => match x s with
           | (s1, inl e) => (s1, inl e)
           | (s1, inr a) => f a s1
           end.
Definition raise {A} (e : exn) : M A := fun s => (s, inl e).
Definition get_state : M state := fun s => (s, inr s).
Definition modify (f : state -> state) : M unit := fun s => (f s, inr tt).
Definition lift {A} (r : exn + A) : M A := fun s => (s, r).

Notation "'let!' x := c 'in' k" := (bind c (fun x => k))
  (at level 200, x name, c at level 100, k at level 200).

(** [logger.warning(...)] *)
Definition warn (msg : string) : M unit :=
  modify (fun s => mkState (folder_exists s) (files s) (mem_data s)
                           (log s ++ [msg])).

Fixpoint mapM {A B} (f : A -> M B) (l : list A) : M (list B) :=
  match l with
  | [] => ret []
  | x :: l' => let! y := f x in let! ys := mapM f l' in ret (y :: ys)
  end.

Fixpoint iterM {A} (f : nat -> A -> M unit) (idx : nat) (l : list A) : M unit :=
  match l with
  | [] => ret tt
  | x :: l' => let! _u := f idx x in iterM f (S idx) l'
  end.

(* ------------------------------------------------------------------ *)
(** ** [genfromtxt] and [astype] as [__parse_zip_file] uses them *)

(** A value stored in a NumPy ['U<n>'] array keeps its first [n] characters. *)
Definition truncate (n : nat) (v : string) : string := substring 0 n v.

(** [LineSplitter] of [genfromtxt] with [delimiter=';'] and the default
    [comments='#']: the line is cut at the first ['#'], stripped of
    [" \r\n"] at both ends, and an empty remainder gives no field at all;
    otherwise it is split at every [';'] (fields are not stripped). *)
Fixpoint before_comment (l : list ascii) : list ascii :=
  match l with
  | [] => []
  | c :: l' => if ascii_eqb c "#"%char then [] else c :: before_comment l'
  end.

Fixpoint lstrip (p : ascii -> bool) (l : list ascii) : list ascii :=
  match l with
  | [] => []
  | c :: l' => if p c then lstrip p l' else l
  end.

(** [str.strip(chars)] *)
Definition strip (p : ascii -> bool) (l : list ascii) : list ascii :=
  rev (lstrip p (rev (lstrip p l))).

Definition line_strip_char (c : ascii) : bool :=
  ascii_eqb c " "%char || ascii_eqb c "013"%char || ascii_eqb c "010"%char.

(** [str.split(sep)] *)
Fixpoint split_on (sep : ascii) (cur : list ascii) (l : list ascii) : list string :=
  match l with
  | [] => [string_of_list_ascii (rev cur)]
  | c :: l' =>
      if ascii_eqb c sep then string_of_list_ascii (rev cur) :: split_on sep [] l'
      else split_on sep (c :: cur) l'
  end.

Definition split_line (line : string) : list string :=
  match strip line_strip_char (before_comment (list_ascii_of_string line)) with
  | [] => []
  | l => split_on ";"%char [] l
  end.

(** A line that carries values; [genfromtxt] skips the others. *)
Definition has_values (line : string) : bool :=
  negb (Nat.eqb (length (split_line line)) 0).

(** One line of the entry: [usecols=arange(0, 64)] with the converters,
    stored with [dtype='U23']. *)
Fixpoint convert_fields (idx : nat) (fields : list string) : list string :=
  match fields with
  | [] => []
  | v :: vs => truncate 23 (converter idx v) :: convert_fields (S idx) vs
  end.

(** [genfromtxt(..., delimiter=';', usecols=arange(0, 64), dtype='U23',
    converters=...)] on the lines of an entry, in the order NumPy checks:
    - the lines with values are the rows; with none, the width of the
      string columns is the [max] of an empty sequence;
    - the converters are tested on the first row's field of each used
      column, which is out of range when that row has fewer than 64 fields;
    - any row with fewer than 64 fields is invalid, and invalid rows raise
      once all lines are read;
    - the result is squeezed: one row gives a one-dimensional array. *)
Definition genfromtxt (lines : list string) : exn + arr :=
  let rows := List.filter (fun vs => negb (Nat.eqb (length vs) 0))
                (map split_line lines) in
  match rows with
  | [] => inl (ValueError "max() arg is an empty sequence")
  | first :: _ =>
      if Nat.ltb (length first) 64 then inl (IndexError "list index out of range")
      else if existsb (fun vs => Nat.ltb (length vs) 64) rows
      then inl (ValueError "Some errors were detected")
      else
        let data := map (fun vs => convert_fields 0 (firstn 64 vs)) rows in
        inr (match data with
             | [r] => A1 r
             | _ => A2 data
             end)
  end.

(** [.T] *)
Definition transpose_arr (a : arr) : arr :=
  match a with
  | A1 xs => A1 xs
  | A2 rows =>
      A2 (map (fun j => map (fun r => nth j r "") rows)
              (seq 0 (length (hd [] rows))))
  end.

Inductive cell : Type := CStr (v : string) | CInt (z : Z).

Definition digit_val (c : ascii) : Z := Z.of_nat (nat_of_ascii c - 48).

(** The characters [str.strip()] and [int()] treat as white space, among
    the code points below 256. *)
Definition py_space (c : ascii) : bool :=
  let n := nat_of_ascii c in
  (Nat.leb 9 n && Nat.leb n 13) || (Nat.leb 28 n && Nat.leb n 32) ||
  Nat.eqb n 133 || Nat.eqb n 160.

(** Decimal digits, where a single [_] may separate two digits. *)
Fixpoint digits_val (acc : Z) (after_digit : bool) (l : list ascii) : option Z :=
  match l with
  | [] => if after_digit then Some acc else None
  | c :: l' =>
      if is_digit c then digits_val (acc * 10 + digit_val c) true l'
      else if ascii_eqb c "_"%char && after_digit then digits_val acc false l'
      else None
  end.

(** [int(v)]: surrounding white space, an optional sign, then digits. *)
Definition parse_int (v : string) : option Z :=
  match strip py_space (list_ascii_of_string v) with
  | [] => None
  | c :: l =>
      if ascii_eqb c "-"%char then option_map Z.opp (digits_val 0 false l)
      else if ascii_eqb c "+"%char then digits_val 0 false l
      else digits_val 0 false (c :: l)
  end.

Definition int_bounds (t : dtype) : Z * Z :=
  match t with
  | Int16 => ((-32768)%Z, 32767%Z)
  | _ => ((-128)%Z, 127%Z)
  end.

Definition astype_value (t : dtype) (v : string) : exn + cell :=
  match t with
  | U n => inr (CStr (truncate n v))
  | _ =>
      match parse_int v with
      | None => inl (ValueError ("invalid literal for int() with base 10: " ++ v))
      | Some z =>
          if (fst (int_bounds t) <=? z)%Z && (z <=? snd (int_bounds t))%Z
          then inr (CInt z) else inl (OverflowError v)
      end
  end.

(** [col.astype(t)] *)
Definition astype (t : dtype) (col : list string) : M (list cell) :=
  mapM (fun v => lift (astype_value t v)) col.

(** [for idx, data_col in enumerate(data):
        data_col = data_col.astype(self.types[idx])]
    The cast column is bound to the loop variable and dropped; only a
    failing cast has an effect. *)
Definition cast_loop (data : arr) : M unit :=
  match data with
  | A1 xs => iterM (fun idx x => let! _c := astype (type_at idx) [x] in ret tt) 0 xs
  | A2 cols =>
      iterM (fun idx col => let! _c := astype (type_at idx) col in ret tt) 0 cols
  end.

(* ------------------------------------------------------------------ *)
(** ** [DataDownloader.__parse_zip_file] *)

Definition parse_zip_file (zip_fname region : string) : M arr :=
  let! s := get_state in
  match file_at zip_fname (files s) with
  | None => raise (FileNotFoundError zip_fname)
  | Some (FCache _) => raise (BadZipFile zip_fname)
  | Some (FZip entries) =>
      match assoc_get region region_file with
      | None => raise (KeyError region)
      | Some csv_name =>
          match assoc_get csv_name entries with
          | None =>
              (* the code logs [zip_file.filename], the archive's path in
                 the data folder; files are named here relative to it *)
              let! _w := warn (region ++ " is not in " ++ zip_fname) in
              ret (A1 [])
          | Some lines =>
              let! data0 := lift (genfromtxt lines) in
              let data := transpose_arr data0 in
              let! _u := cast_loop data in
              match data with
              | A1 _ => raise (IndexError "tuple index out of range")
              | A2 cols =>
                  ret (A2 (cols ++ [repeat region (length (hd [] cols))]))
              end
          end
      end
  end.

(** [concatenate(parts, axis=1)]: all arrays two-dimensional with the same
    number of rows, whose rows are then joined. *)
Fixpoint all_rows (parts : list arr) : option (list (list (list string))) :=
  match parts with
  | [] => Some []
  | A2 r :: ps => option_map (cons r) (all_rows ps)
  | A1 _ :: _ => None
  end.

Definition hcat (a b : list (list string)) : list (list string) :=
  zip_with app a b.

Definition concatenate1 (parts : list arr) : exn + arr :=
  match all_rows parts with
  | Some (r0 :: rs) =>
      if forallb (fun r => Nat.eqb (length r) (length r0)) rs
      then inr (A2 (fold_left hcat rs r0))
      else inl (ValueError "all the input array dimensions except for the concatenation axis must match exactly")
  | Some [] => inl (ValueError "need at least one array to concatenate")
  | None => inl (ValueError "all the input arrays must have same number of dimensions")
  end.

(* ------------------------------------------------------------------ *)
(** ** [download_data], [parse_region_data], [__get_region_data], [get_list] *)

Definition set_files (fs : list (string * file)) (s : state) : state :=
  mkState (folder_exists s) fs (mem_data s) (log s).

Definition set_mem (mm : gmap string pyval) (s : state) : state :=
  mkState (folder_exists s) (files s) mm (log s).

(** [os.path.split(p)[-1]] *)
Definition basename (p : string) : string :=
  let fix after_slash (l acc : list ascii) : list ascii :=
    match l with
    | [] => acc
    | c :: l' => if ascii_eqb c "/"%char then after_slash l' [] else after_slash l' (acc ++ [c])
    end in
  string_of_list_ascii (after_slash (list_ascii_of_string p) []).

(** [folder_contains_zip]: its [return False] sits inside the loop, so only
    the first listed file is looked at. *)
Definition folder_contains_zip (s : state) : bool :=
  match files s with
  | [] => false
  | (n, _) :: _ => if re_match re_zip n then true else false
  end.

Definition cache_name (region : string) : string :=
  "data_" ++ region ++ ".pkl.gz".

Definition all_regions : list string :=
  [ "PHA"; "STC"; "JHC"; "PLK"; "ULK";
    "HHK"; "JHM"; "MSK"; "OLK"; "ZLK";
    "VYS"; "PAK"; "LBK"; "KVK" ].

Section Downloader.

(** The fetch collaborator: the [href]s of the anchors of the page at
    [self.__url], and the archive served for each of them. *)
Variable fetch_links : list string.
Variable fetch_zip : string -> list (string * list string).

Definition download_data : M unit :=
  let! _m := modify (fun s => mkState true (files s) (mem_data s) (log s)) in
  iterM (fun _ zip_url =>
           modify (fun s => set_files (write_file (basename zip_url)
                                         (FZip (fetch_zip zip_url)) (files s)) s))
        0 (get_latest_zip_urls fetch_links).

Definition parse_region_data (region : string) : M pyval :=
  let! s := get_state in
  let! _d := (if folder_exists s && folder_contains_zip s then ret tt
              else download_data) in
  match assoc_get region region_file with
  | None =>
      let! _w := warn (region ++ " is not in region list") in
      ret PyNone
  | Some _ =>
      let! s1 := get_state in
      let! parts :=
        mapM (fun zip_fname => parse_zip_file zip_fname region)
             (List.filter (fun n => if re_search re_zip n then true else false)
                     (map fst (files s1))) in
      let! a := lift (concatenate1 parts) in
      ret (PyPair header a)
  end.

Definition get_region_data (region : string) : M pyval :=
  let! s := get_state in
  match mem_data s !! region with
  | Some _ =>
      match mem_data s !! "region" with
      | Some v => ret v
      | None => raise (KeyError "region")
      end
  | None =>
      match file_at (cache_name region) (files s) with
      | Some (FCache v) => ret v
      | Some (FZip _) => raise (UnpicklingError (cache_name region))
      | None =>
          let! data := parse_region_data region in
          let! _c := modify (fun s1 => set_files
                       (write_file (cache_name region) (FCache data) (files s1)) s1) in
          let! _m := modify (fun s2 => set_mem (<[region := data]> (mem_data s2)) s2) in
          ret data
      end
  end.

(** [self.__get_region_data(region)[1]] *)
Definition region_table (region : string) : M arr :=
  let! v := get_region_data region in
  match v with
  | PyNone => raise (TypeError "'NoneType' object is not subscriptable")
  | PyPair _ a => ret a
  end.

(** [regions=None] and [regions=[]] both select every region. *)
Definition get_list (regions : list string) : M (list string * arr) :=
  let regions := match regions with [] => all_regions | _ => regions end in
  let! tables := mapM region_table regions in
  let! a := lift (concatenate1 tables) in
  ret (header, a).

End Downloader.

(* ------------------------------------------------------------------ *)
(** ** [get_accidents_count] of src/proj_1/get_stat.py *)

(** [count[year][region] += 1], creating the missing levels first. *)
Definition count_add (year region : string)
    (count : gmap string (gmap string nat)) : gmap string (gmap string nat) :=
  let inner := default ∅ (count !! year) in
  <[year := <[region := S (default 0 (inner !! region))]> inner]> count.

(** [data_source[1][3][idx][:4]] and [data_source[1][64][idx]]. *)
Fixpoint count_loop (rows : list (list string)) (idxs : list nat)
    (count : gmap string (gmap string nat))
    : exn + gmap string (gmap string nat) :=
  match idxs with
  | [] => inr count
  | idx :: rest =>
      match nth_error rows 3 ≫= (fun row => nth_error row idx) with
      | None => inl (IndexError "index out of range")
      | Some date =>
          match nth_error rows 64 ≫= (fun row => nth_error row idx) with
          | None => inl (IndexError "index out of range")
          | Some region => count_loop rows rest (count_add (truncate 4 date) region count)
          end
      end
  end.

(** [for idx in arange(data_source[1].shape[1])]: a one-dimensional array
    has no [shape[1]]. *)
Definition get_accidents_count (data_source : list string * arr)
    : exn + gmap string (gmap string nat) :=
  match snd data_source with
  | A1 _ => inl (IndexError "tuple index out of range")
  | A2 rows => count_loop rows (seq 0 (length (hd [] rows))) ∅
  end.

(** The year and the region of record [idx] of a table. *)
Definition record_year (rows : list (list string)) (idx : nat) : string :=
  truncate 4 (nth idx (nth 3 rows []) "").
Definition record_region (rows : list (list string)) (idx : nat) : string :=
  nth idx (nth 64 rows []) "".

(** The last of [urls] whose file name is [name]: the one whose archive
    [download_data] leaves under that name. *)
Definition last_url_for (name : string) (urls : list string) : option string :=
  fold_left (fun acc u => if String.eqb (basename u) name then Some u else acc)
            urls None.

(** Whether [link] matches [re_zip]. *)
Definition is_zip_link (link : string) : bool :=
  if re_search re_zip link then true else false.

(* ------------------------------------------------------------------ *)
(** ** Concrete inputs *)

(** A fetch collaborator that serves nothing. *)
Definition no_links : list string := [].
Definition no_zip (zip_url : string) : list (string * list string) := [].

(** A CSV line of 64 fields whose [ID] field has 16 characters. *)
Definition row_long_id : list string := "1234567890123456" :: repeat "1" 63.
Definition line_long_id : string := String.concat ";" row_long_id.

(** An archive with two lines for PHA ([00.csv]) and three for STC ([01.csv]). *)
Definition archive_2020 : file :=
  FZip [("00.csv", [line_long_id; line_long_id]);
        ("01.csv", [line_long_id; line_long_id; line_long_id])].

(** A fresh instance over a folder holding that archive and no cache. *)
Definition fresh_state : state :=
  mkState true [("datagis-2020.zip", archive_2020)] ∅ [].

(** The same, with an older archive listed first that has no [00.csv]. *)
Definition two_archives_state : state :=
  mkState true [("datagis-2019.zip", FZip [("01.csv", [line_long_id; line_long_id])]);
                ("datagis-2020.zip", archive_2020)] ∅ [].

Definition first_column (r : exn + arr) : list string :=
  match r with inr (A2 (c :: _)) => c | _ => [] end.

Definition record_count (r : exn + (list string * arr)) : option nat :=
  match r with inr (_, A2 (c :: _)) => Some (length c) | _ => None end.

Definition the_match (link : string) : match_obj :=
  match re_search re_zip link with Some mo => mo | None => [] end.

(** [fresh_state] after parsing PHA, the parse result, and a new instance
    over the folder left by a cold [__get_region_data('PHA')]. *)
Definition parsed_state : state :=
  fst (parse_region_data no_links no_zip "PHA" fresh_state).

Definition parsed_pha : pyval :=
  match snd (parse_region_data no_links no_zip "PHA" fresh_state) with
  | inr d => d
  | inl _ => PyNone
  end.

Definition restarted_state : state :=
  mkState true (files (fst (get_region_data no_links no_zip "PHA" fresh_state))) ∅ [].

Definition arr_of (r : exn + arr) : arr :=
  match r with inr a => a | inl _ => A1 [] end.

Definition pyval_arr (v : pyval) : arr :=
  match v with PyPair _ a => a | PyNone => A1 [] end.

(** A folder whose archive has a line of two fields in [00.csv]. *)
Definition short_line_state : state :=
  mkState true [("datagis-2020.zip", FZip [("00.csv", [line_long_id; "1;2"])])] ∅ [].

(** A folder whose [00.csv] has the sentinel [XX] in field 12
    ([Hlavni priciny], an [int16] column) of both lines. *)
Definition xx_line : string :=
  String.concat ";" ("1234567890123456" :: repeat "1" 11 ++ "XX" :: repeat "1" 51).
Definition xx_int16_state : state :=
  mkState true [("datagis-2020.zip", FZip [("00.csv", [xx_line; xx_line])])] ∅ [].

(** The same with [XX] in field 1 ([Druh pozemni komunikace], an [int8]
    column) instead. *)
Definition xx8_line : string :=
  String.concat ";" ("1234567890123456" :: "XX" :: repeat "1" 62).
Definition xx_int8_state : state :=
  mkState true [("datagis-2020.zip", FZip [("00.csv", [xx8_line; xx8_line])])] ∅ [].

(** A folder whose [00.csv] has a blank line and a comment line between its
    two records, and a record with a trailing comment. *)
Definition commented_state : state :=
  mkState true [("datagis-2020.zip",
                 FZip [("00.csv", [line_long_id; ""; "# export"; String.append line_long_id " # end"])])]
          ∅ [].

(** A new instance over the folder left by [get_list(['PHA', 'STC'])]. *)
Definition warm_state : state :=
  mkState true (files (fst (get_list no_links no_zip ["PHA"; "STC"] fresh_state))) ∅ [].

(** The header and the table of the cache artifact of [region]. *)
Definition cached_header (s : state) (region : string) : list string :=
  match file_at (cache_name region) (files s) with
  | Some (FCache (PyPair h _)) => h
  | _ => []
  end.

Definition cached_table (s : state) (region : string) : list (list string) :=
  match file_at (cache_name region) (files s) with
  | Some (FCache (PyPair _ (A2 rows))) => rows
  | _ => []
  end.

(** The table [get_list(['PHA', 'STC'])] returns on [fresh_state]. *)
Definition merged_rows : list (list string) :=
  match snd (get_list no_links no_zip ["PHA"; "STC"] fresh_state) with
  | inr (_, A2 rows) => rows
  | _ => []
  end.

(* ------------------------------------------------------------------ *)
(** ** Facts about the matcher *)

Module RegexFacts.

Section Star.
Context {R : Type}.

Lemma star_none (p : ascii -> bool) (s : list ascii)
    (k : list ascii -> option R) :
  star p s k = None ->
  forall t1 t2, s = t1 ++ t2 -> forallb p t1 = true -> k t2 = None.
Proof.
  revert k. induction s as [|c s IH]; intros k H t1 t2 Hs Hp.
  - destruct t1; [|discriminate]. simpl in Hs. subst. exact H.
  - simpl in H. destruct t1 as [|c1 t1].
    + simpl in Hs. subst t2. destruct (p c); [|exact H].
      destruct (star p s k); [discriminate|exact H].
    + simpl in Hs, Hp. injection Hs as -> Hs.
      apply andb_true_iff in Hp as [Hc Hp]. rewrite Hc in H.
      destruct (star p s k) eqn:E; [discriminate|].
      exact (IH k E t1 t2 Hs Hp).
Qed.

(** Greedy repetition returns the success of the longest run of the class
    after which the continuation succeeds. *)
Lemma star_first (p : ascii -> bool) (s : list ascii)
    (k : list ascii -> option R) (r : R) :
  star p s k = Some r ->
  exists s1 s2, s = s1 ++ s2 /\ forallb p s1 = true /\ k s2 = Some r /\
    forall t1 t2, s2 = t1 ++ t2 -> t1 <> [] -> forallb p t1 = true ->
      k t2 = None.
Proof.
  induction s as [|c s IH]; intros H.
  - exists [], []. repeat split; auto.
    intros t1 t2 Ht Hne _. destruct t1; [contradiction|discriminate].
  - simpl in H. destruct (p c) eqn:Hc.
    + destruct (star p s k) eqn:E.
      * injection H as ->. destruct (IH eq_refl) as (s1 & s2 & -> & Hp & Hk & Hn).
        exists (c :: s1), s2. simpl. rewrite Hc, Hp. auto.
      * exists [], (c :: s). repeat split; auto.
        intros t1 t2 Ht Hne Hp. destruct t1 as [|c1 t1]; [contradiction|].
        simpl in Ht, Hp. injection Ht as -> Ht.
        apply andb_true_iff in Hp as [_ Hp].
        exact (star_none p s k E t1 t2 Ht Hp).
    + exists [], (c :: s). repeat split; auto.
      intros t1 t2 Ht Hne Hp. destruct t1 as [|c1 t1]; [contradiction|].
      simpl in Ht, Hp. injection Ht as -> _. rewrite Hc in Hp. discriminate.
Qed.

Lemma star_none_iff (p : ascii -> bool) (s : list ascii)
    (k1 k2 : list ascii -> option R) :
  (forall t, k1 t = None <-> k2 t = None) ->
  star p s k1 = None <-> star p s k2 = None.
Proof.
  intros Hk. induction s as [|c s IH]; simpl; [apply Hk|].
  destruct (p c); [|apply Hk].
  destruct (star p s k1), (star p s k2).
  - split; discriminate.
  - destruct IH as [_ IH]. discriminate (IH eq_refl).
  - destruct IH as [IH _]. discriminate (IH eq_refl).
  - apply Hk.
Qed.

End Star.

(** Whether a continuation fails does not depend on the captures. *)
Definition caps_insensitive {R} (n0 : nat)
    (k : list ascii -> caps -> option R) : Prop :=
  forall s cs cs', k s cs = None <-> k s cs' = None.

Lemma m_caps_insensitive {R} (r : regex) :
  forall n0 (k : list ascii -> caps -> option R),
  caps_insensitive n0 k ->
  caps_insensitive n0 (fun s cs => m r n0 s cs k).
Proof.
  induction r as [p|r1 IH1 r2 IH2|r1 IH1 r2 IH2| |p|g r IH|];
    intros n0 k Hk s cs cs'; simpl.
  - destruct s as [|c s]; [tauto|]. destruct (p c); [apply Hk|tauto].
  - apply (IH1 n0 _ (IH2 n0 k Hk)).
  - specialize (IH1 n0 k Hk s cs cs'). specialize (IH2 n0 k Hk s cs cs').
    destruct (m r1 n0 s cs k), (m r1 n0 s cs' k); try tauto;
      destruct IH1 as [A B]; [specialize (B eq_refl)|specialize (A eq_refl)];
      discriminate.
  - apply Hk.
  - apply star_none_iff. intros t. apply Hk.
  - apply (IH n0 _). intros s1 cs1 cs1'. apply Hk.
  - destruct (Nat.eqb (length s) n0); [apply Hk|tauto].
Qed.

Fixpoint no_group1 (r : regex) : bool :=
  match r with
  | RSeq r1 r2 | RAlt r1 r2 => no_group1 r1 && no_group1 r2
  | RGroup g r1 => negb (Nat.eqb g 1) && no_group1 r1
  | _ => true
  end.

(** A continuation that leaves group 1 unset when it was unset. *)
Definition keeps1 (k : list ascii -> caps -> option match_obj) : Prop :=
  forall s cs res, cap_lookup 1 cs = None -> k s cs = Some res ->
    cap_lookup 1 res = None.

Lemma star_some {R} (p : ascii -> bool) (s : list ascii)
    (k : list ascii -> option R) (r : R) :
  star p s k = Some r -> exists t, k t = Some r.
Proof.
  intros H. destruct (star_first p s k r H) as (_ & t & _ & _ & Ht & _).
  eauto.
Qed.

Lemma m_keeps1 (r : regex) :
  no_group1 r = true ->
  forall n0 k, keeps1 k -> keeps1 (fun s cs => m r n0 s cs k).
Proof.
  induction r as [p|r1 IH1 r2 IH2|r1 IH1 r2 IH2| |p|g r IH|];
    intros Hr n0 k Hk s cs res Hcs H; simpl in *.
  - destruct s as [|c s]; [discriminate|].
    destruct (p c); [exact (Hk _ _ _ Hcs H)|discriminate].
  - apply andb_true_iff in Hr as [Hr1 Hr2].
    exact (IH1 Hr1 n0 _ (IH2 Hr2 n0 k Hk) s cs res Hcs H).
  - apply andb_true_iff in Hr as [Hr1 Hr2].
    destruct (m r1 n0 s cs k) eqn:E.
    + injection H as <-. exact (IH1 Hr1 n0 k Hk s cs _ Hcs E).
    + exact (IH2 Hr2 n0 k Hk s cs res Hcs H).
  - exact (Hk _ _ _ Hcs H).
  - destruct (star_some p s _ res H) as [t Ht]. exact (Hk _ _ _ Hcs Ht).
  - apply andb_true_iff in Hr as [Hg Hr].
    refine (IH Hr n0 _ _ s cs res Hcs H).
    intros s1 cs1 res1 Hcs1 H1. refine (Hk _ _ _ _ H1).
    simpl. destruct (Nat.eqb g 1); [discriminate|exact Hcs1].
  - destruct (Nat.eqb (length s) n0); [exact (Hk _ _ _ Hcs H)|discriminate].
Qed.

(** Expressions built from single characters other than newline. *)
Fixpoint plain (r : regex) : Prop :=
  match r with
  | RChar p => forall c, p c = true -> dot c = true
  | RSeq r1 r2 | RAlt r1 r2 => plain r1 /\ plain r2
  | REps => True
  | _ => False
  end.

Fixpoint minlen (r : regex) : nat :=
  match r with
  | RChar _ => 1
  | RSeq r1 r2 => minlen r1 + minlen r2
  | RAlt r1 r2 => Nat.min (minlen r1) (minlen r2)
  | _ => 0
  end.

Lemma plain_consumes {R} (r : regex) :
  plain r -> forall n0 s cs (k : list ascii -> caps -> option R) res,
  m r n0 s cs k = Some res ->
  exists t1 t2, s = t1 ++ t2 /\ forallb dot t1 = true /\
    minlen r <= length t1 /\ k t2 cs = Some res.
Proof.
  induction r as [p|r1 IH1 r2 IH2|r1 IH1 r2 IH2| |p|g r IH|];
    intros Hr n0 s cs k res H; simpl in *; try contradiction.
  - destruct s as [|c s]; [discriminate|].
    destruct (p c) eqn:Hc; [|discriminate].
    exists [c], s. simpl. rewrite (Hr c Hc). auto.
  - destruct Hr as [Hr1 Hr2].
    destruct (IH1 Hr1 n0 s cs _ res H) as (t1 & t2 & -> & D1 & L1 & H2).
    destruct (IH2 Hr2 n0 t2 cs k res H2) as (t3 & t4 & -> & D3 & L3 & H4).
    exists (t1 ++ t3), t4. rewrite app_assoc, forallb_app, D1, D3, length_app.
    repeat split; auto. lia.
  - destruct Hr as [Hr1 Hr2]. destruct (m r1 n0 s cs k) eqn:E.
    + injection H as <-.
      destruct (IH1 Hr1 n0 s cs k _ E) as (t1 & t2 & Hs & D & L & Hk).
      exists t1, t2. repeat split; auto. lia.
    + destruct (IH2 Hr2 n0 s cs k _ H) as (t1 & t2 & Hs & D & L & Hk).
      exists t1, t2. repeat split; auto. lia.
  - exists [], s. auto.
Qed.

Ltac char_not_newline :=
  let c := fresh "c" in let H := fresh "H" in let E := fresh "E" in
  intros c H; unfold dot;
  destruct (ascii_eqb c "010"%char) eqn:E;
  [apply Ascii.eqb_eq in E; subst c; discriminate H | reflexivity].

Lemma re_tag_plain : plain re_tag.
Proof. simpl. repeat split; char_not_newline. Qed.

Lemma re_tag_nonempty : minlen re_tag = 3.
Proof. reflexivity. Qed.

(** The heart of the matter: the greedy [.*] in front of the optional
    group leaves group 1 unset in every match of [re_tail]. *)
Lemma tail_keeps1 (n0 : nat) (K : list ascii -> caps -> option match_obj) :
  caps_insensitive n0 K -> keeps1 K ->
  keeps1 (fun s cs => m re_tail n0 s cs K).
Proof.
  intros HKi HK1 s cs res Hcs H.
  unfold re_tail in H. cbn [m] in H.
  destruct (star_first dot s _ res H) as (s1 & s2 & _ & _ & Hk & Hfirst).
  destruct (@m match_obj re_tag n0 s2 cs _) eqn:Etag.
  - injection Hk as <-. exfalso.
    destruct (plain_consumes re_tag re_tag_plain n0 s2 cs _ _ Etag)
      as (t1 & t2 & Hs2 & D & L & Hy).
    rewrite re_tag_nonempty in L.
    assert (Hne : t1 <> []) by (intros ->; simpl in L; lia).
    specialize (Hfirst t1 t2 Hs2 Hne D). cbv beta in Hfirst.
    destruct (@m match_obj re_tag n0 t2 cs _); [discriminate|].
    cbv beta in Hy.
    rewrite (proj1 (m_caps_insensitive re_year_zip n0 K HKi t2 cs _) Hfirst)
      in Hy.
    discriminate.
  - refine (m_keeps1 re_year_zip eq_refl n0 K HK1 s2 cs res Hcs Hk).
Qed.

Lemma seq_keeps1 (a b : regex) (n0 : nat) k :
  no_group1 a = true ->
  keeps1 (fun s cs => m b n0 s cs k) ->
  keeps1 (fun s cs => m (RSeq a b) n0 s cs k).
Proof. intros Ha Hb. exact (m_keeps1 a Ha n0 _ Hb). Qed.

Lemma finish_insensitive (s0 : list ascii) n0 :
  caps_insensitive n0 (finish s0).
Proof. intros s cs cs'. unfold finish. split; discriminate. Qed.

Lemma finish_keeps1 (s0 : list ascii) : keeps1 (finish s0).
Proof. intros s cs res Hcs H. injection H as <-. exact Hcs. Qed.

Lemma re_zip_keeps1 (n0 : nat) (s0 : list ascii) :
  keeps1 (fun s cs => m re_zip n0 s cs (finish s0)).
Proof.
  unfold re_zip.
  apply seq_keeps1; [reflexivity|].
  apply seq_keeps1; [reflexivity|].
  apply seq_keeps1; [reflexivity|].
  apply tail_keeps1; [apply finish_insensitive|apply finish_keeps1].
Qed.

Lemma search_from_group1 (n0 : nat) (s : list ascii) (mo : match_obj) :
  search_from re_zip n0 s = Some mo -> cap_lookup 1 mo = None.
Proof.
  revert mo. induction s as [|c s IH]; intros mo H; cbn [search_from] in H.
  - destruct (@m match_obj re_zip n0 [] [] (finish [])) eqn:E;
      [|discriminate].
    injection H as <-. exact (re_zip_keeps1 n0 [] _ [] _ eq_refl E).
  - destruct (@m match_obj re_zip n0 (c :: s) [] (finish (c :: s))) eqn:E.
    + injection H as <-. exact (re_zip_keeps1 n0 (c :: s) _ [] _ eq_refl E).
    + exact (IH mo H).
Qed.

End RegexFacts.

(* ------------------------------------------------------------------ *)
(** ** Sanity checks on concrete inputs *)

Example re_zip_month :
  option_map (fun mo => (group mo 0, group mo 1, group mo 2))
    (re_search re_zip "data/datagis-01-2020.zip")
  = Some (Some "data/datagis-01-2020.zip", None, Some "2020").
Proof. vm_compute. reflexivity. Qed.

Example selector_years :
  get_latest_zip_urls ["datagis-rok-2019.zip"; "x.html"; "datagis-rok-2020.zip"]
  = ["datagis-rok-2020.zip"].
Proof. vm_compute. reflexivity. Qed.

(* ------------------------------------------------------------------ *)
(** ** Frame facts of the monadic code *)

Module CacheFacts.

(** [x] leaves the component [f] of the state alone. *)
Definition frame {X A} (f : state -> X) (x : M A) : Prop :=
  forall s, f (fst (x s)) = f s.

Section Frame.
Context {X : Type} (f : state -> X).

Lemma frame_ret {A} (a : A) : frame f (ret a).
Proof. intros s. reflexivity. Qed.

Lemma frame_raise {A} (e : exn) : frame f (@raise A e).
Proof. intros s. reflexivity. Qed.

Lemma frame_lift {A} (r : exn + A) : frame f (lift r).
Proof. intros s. reflexivity. Qed.

Lemma frame_get : frame f get_state.
Proof. intros s. reflexivity. Qed.

Lemma frame_bind {A B} (x : M A) (k : A -> M B) :
  frame f x -> (forall a, frame f (k a)) -> frame f (bind x k).
Proof.
  intros Hx Hk s. unfold bind. specialize (Hx s).
  destruct (x s) as [s1 [e|a]]; simpl in *; [exact Hx|].
  rewrite Hk. exact Hx.
Qed.

Lemma frame_bind_get {B} (k : state -> M B) :
  (forall s, frame f (k s)) -> frame f (bind get_state k).
Proof. intros Hk. apply frame_bind; [apply frame_get|exact Hk]. Qed.

Lemma frame_mapM {A B} (g : A -> M B) (l : list A) :
  (forall a, frame f (g a)) -> frame f (mapM g l).
Proof.
  intros Hg. induction l as [|a l IH]; simpl.
  - apply frame_ret.
  - apply frame_bind; [apply Hg|intros b].
    apply frame_bind; [exact IH|intros bs]. apply frame_ret.
Qed.

Lemma frame_iterM {A} (g : nat -> A -> M unit) (l : list A) :
  (forall i a, frame f (g i a)) -> forall idx, frame f (iterM g idx l).
Proof.
  intros Hg. induction l as [|a l IH]; intros idx; simpl.
  - apply frame_ret.
  - apply frame_bind; [apply Hg|intros _]. apply IH.
Qed.

End Frame.

Lemma frame_modify {X} (f : state -> X) (g : state -> state) :
  (forall s, f (g s) = f s) -> frame f (modify g).
Proof. intros Hg s. exact (Hg s). Qed.

Ltac frame_step :=
  lazymatch goal with
  | |- frame _ (ret _) => apply frame_ret
  | |- frame _ (raise _) => apply frame_raise
  | |- frame _ (lift _) => apply frame_lift
  | |- frame _ get_state => apply frame_get
  | |- frame _ (bind _ _) => apply frame_bind; [|intro]
  | |- frame _ (mapM _ _) => apply frame_mapM; intro
  | |- frame _ (iterM _ _ _) => apply frame_iterM; intros ? ?
  | |- frame _ (modify _) => apply frame_modify; intro; reflexivity
  | |- frame _ (let _ := _ in _) => cbv zeta
  | |- frame _ _ => case_match
  end.

Ltac frame_tac := repeat frame_step.

Lemma parse_zip_file_mem (zip_fname region : string) :
  frame mem_data (parse_zip_file zip_fname region).
Proof.
  unfold parse_zip_file, warn, genfromtxt, cast_loop, astype. frame_tac.
Qed.

Lemma download_data_mem fl fz : frame mem_data (download_data fl fz).
Proof. unfold download_data. frame_tac. Qed.

Lemma parse_region_data_mem fl fz (region : string) :
  frame mem_data (parse_region_data fl fz region).
Proof.
  unfold parse_region_data, warn. frame_tac;
    first [apply download_data_mem | apply parse_zip_file_mem].
Qed.

Lemma download_data_log fl fz : frame log (download_data fl fz).
Proof. unfold download_data. frame_tac. Qed.

Lemma file_at_write (name : string) (f : file) (fs : list (string * file)) :
  file_at name (write_file name f fs) = Some f.
Proof.
  induction fs as [|[n g] fs IH]; simpl.
  - rewrite String.eqb_refl. reflexivity.
  - destruct (String.eqb n name) eqn:E; simpl; rewrite E; [reflexivity|exact IH].
Qed.

(** The second tier: a cache artifact is returned as it is stored and the
    state is left alone. *)
Lemma get_region_data_disk_hit fl fz (region : string) (s : state) (v : pyval) :
  mem_data s !! region = None ->
  file_at (cache_name region) (files s) = Some (FCache v) ->
  get_region_data fl fz region s = (s, inr v).
Proof.
  intros Hm Hf. unfold get_region_data, bind, get_state, ret.
  cbv beta iota. rewrite Hm, Hf. reflexivity.
Qed.

(** The third tier: the parse result is written to the cache artifact and
    inserted in the memory map. *)
Lemma get_region_data_cold fl fz (region : string) (s s1 : state) (d : pyval) :
  mem_data s !! region = None ->
  file_at (cache_name region) (files s) = None ->
  parse_region_data fl fz region s = (s1, inr d) ->
  get_region_data fl fz region s =
    (set_mem (<[region := d]> (mem_data s1))
       (set_files (write_file (cache_name region) (FCache d) (files s1)) s1),
     inr d).
Proof.
  intros Hm Hf Hp. unfold get_region_data, bind, get_state, modify, ret.
  cbv beta iota. rewrite Hm, Hf, Hp. reflexivity.
Qed.

Lemma iterM_ok (g : nat -> string -> M unit) (l : list string) :
  (forall i a s, exists s', g i a s = (s', inr tt) /\ log s' = log s) ->
  forall idx s, exists s', iterM g idx l s = (s', inr tt) /\ log s' = log s.
Proof.
  intros Hg. induction l as [|a l IH]; intros idx s; simpl.
  - exists s. auto.
  - unfold bind. destruct (Hg idx a s) as (s1 & -> & L1).
    destruct (IH (S idx) s1) as (s2 & -> & L2).
    exists s2. split; [reflexivity|congruence].
Qed.

(** The fetch collaborator never raises in the model and logs nothing. *)
Lemma download_data_ok fl fz (s : state) :
  exists s', download_data fl fz s = (s', inr tt) /\ log s' = log s.
Proof.
  unfold download_data, bind, modify. cbv beta iota.
  match goal with
  | |- exists s', iterM ?g ?i ?l ?s0 = _ /\ _ =>
      destruct (iterM_ok g l) with (idx := i) (s := s0) as (s' & E & L)
  end.
  - intros i a s1. eexists. split; reflexivity.
  - exists s'. split; [exact E|exact L].
Qed.

End CacheFacts.

(* ------------------------------------------------------------------ *)
(** ** Facts about the selector *)

Module SelectorFacts.

Lemma lex_ltb_irrefl (a : list ascii) : lex_ltb a a = false.
Proof.
  induction a as [|c a IH]; simpl; [reflexivity|].
  rewrite Nat.ltb_irrefl. exact IH.
Qed.

Lemma str_ltb_irrefl (a : string) : str_ltb a a = false.
Proof. apply lex_ltb_irrefl. Qed.

Lemma search_group1 (link : string) (mo : match_obj) :
  re_search re_zip link = Some mo -> group mo 1 = None.
Proof.
  intros H. unfold group.
  rewrite (RegexFacts.search_from_group1 _ _ _ H). reflexivity.
Qed.

Lemma latest_eq_whole (links : list string) (last_match : option match_obj) :
  (forall lm, last_match = Some lm -> group lm 1 = None) ->
  latest_zip_urls_from links last_match = whole_string_urls_from links last_match.
Proof.
  revert last_match.
  induction links as [|link links IH]; intros last_match Hl;
    cbn [latest_zip_urls_from whole_string_urls_from]; [reflexivity|].
  destruct (re_search re_zip link) as [mt|] eqn:E; [|apply IH, Hl].
  assert (Hmt : forall lm, Some mt = Some lm -> group lm 1 = None)
    by (intros lm [= <-]; exact (search_group1 link mt E)).
  destruct last_match as [lm|]; [|apply IH, Hmt].
  rewrite (IH _ Hmt), (Hl lm eq_refl). cbn [truthy andb].
  destruct (str_ltb (group_s lm 2) (group_s mt 2)); reflexivity.
Qed.

End SelectorFacts.

(* ------------------------------------------------------------------ *)
(** ** The claims *)

(** C10: the greedy [.*] in front of the optional period-tag group of
    [re_zip] leaves that group empty in every match, so no candidate ever
    carries a period tag, the tag branch of the selector is never taken
    and the selector is the one that compares whole strings only. *)
Theorem re_zip_never_captures_period_tag :
  (forall (link : string) (mo : match_obj),
     re_search re_zip link = Some mo -> group mo 1 = None) /\
  (forall links : list string,
     get_latest_zip_urls links = whole_string_urls_from links None).
Proof.
  split.
  - exact SelectorFacts.search_group1.
  - intros links. apply SelectorFacts.latest_eq_whole. discriminate.
Qed.

(** C2 (counterexample): for [datagis-rok-2020.zip] followed by
    [datagis-01-2020.zip] the selector emits only the second, while the
    tag tie-break of the spec picks the first ([-rok-] sorts before [01-]). *)
Lemma same_year_tiebreak_counterexample :
  get_latest_zip_urls ["datagis-rok-2020.zip"; "datagis-01-2020.zip"]
    = ["datagis-01-2020.zip"] /\
  spec_tiebreak "-rok-" "datagis-rok-2020.zip" "01-" "datagis-01-2020.zip"
    = "datagis-rok-2020.zip".
Proof. split; vm_compute; reflexivity. Qed.

(** C2 (amended): a matched link of the same year as the held candidate is
    not compared with it at all: the held candidate is dropped without being
    emitted and the new one is held (the last seen wins within a year). *)
Theorem same_year_last_seen_wins (link : string) (rest : list string)
    (lm mt : match_obj) :
  re_search re_zip link = Some mt ->
  group_s lm 2 = group_s mt 2 ->
  latest_zip_urls_from (link :: rest) (Some lm)
    = latest_zip_urls_from rest (Some mt).
Proof.
  intros Hm Hy. cbn [latest_zip_urls_from]. rewrite Hm, Hy.
  rewrite SelectorFacts.str_ltb_irrefl. reflexivity.
Qed.

Lemma same_year_last_seen_wins_witness :
  latest_zip_urls_from ["datagis-01-2020.zip"] (Some (the_match "datagis-rok-2020.zip"))
    = latest_zip_urls_from [] (Some (the_match "datagis-01-2020.zip")).
Proof. apply same_year_last_seen_wins; vm_compute; reflexivity. Defined.

(** C3 (code bug): the converter coerces [XX] to [0] only in the int8
    columns, while it treats an empty value as integer in every non-string
    column: in the int16 column 12 ([Hlavni priciny]) [XX] is kept, and the
    cast of [__parse_zip_file] then raises [ValueError] on it, so on
    [xx_int16_state] both [__parse_zip_file] and [get_list(['PHA'])] fail
    instead of reading the sentinel as [0]; with [XX] in the int8 column 1
    instead ([xx_int8_state]) the parse succeeds. *)
Theorem int16_sentinel_raises :
  type_at 12 = Int16 /\ converter 12 "XX" = "XX" /\ converter 12 "" = "0" /\
  snd (parse_zip_file "datagis-2020.zip" "PHA" xx_int16_state)
    = inl (ValueError "invalid literal for int() with base 10: XX") /\
  snd (get_list no_links no_zip ["PHA"] xx_int16_state)
    = inl (ValueError "invalid literal for int() with base 10: XX") /\
  type_at 1 = Int8 /\ converter 1 "XX" = "0" /\
  exists a, snd (parse_zip_file "datagis-2020.zip" "PHA" xx_int8_state) = inr a.
Proof.
  repeat split; try (vm_compute; reflexivity).
  eexists. vm_compute. reflexivity.
Qed.

(** C1 (code bug): the cast loop of [__parse_zip_file] rebinds its loop
    variable, so no column is cast: on [fresh_state] the [ID] column, declared
    ['U12'], comes back with its 16-character values, stored as ['U23']
    strings like every other column. *)
Theorem parse_zip_file_keeps_uncast_columns :
  type_at 0 = U 12 /\
  first_column (snd (parse_zip_file "datagis-2020.zip" "PHA" fresh_state))
    = ["1234567890123456"; "1234567890123456"] /\
  String.length "1234567890123456" = 16.
Proof. repeat split; vm_compute; reflexivity. Qed.

(** C4 (code bug): an archive without the region's CSV gives [A1 []] (the
    array of [tuple()]) and one warning, but [parse_region_data] then hands
    it to [concatenate] together with the two-dimensional table of the other
    archive, which raises instead of returning the valid rows. *)
Theorem missing_entry_breaks_merge :
  parse_zip_file "datagis-2019.zip" "PHA" two_archives_state
    = (mkState true (files two_archives_state) ∅
               ["PHA is not in datagis-2019.zip"], inr (A1 [])) /\
  snd (parse_region_data no_links no_zip "PHA" two_archives_state)
    = inl (ValueError "all the input arrays must have same number of dimensions").
Proof. split; vm_compute; reflexivity. Qed.

(** C5 (code bug): on a memory hit [__get_region_data] reads the key
    ['region'] instead of [region], so it raises [KeyError('region')]
    whenever that literal key is absent. *)
Theorem memory_hit_raises_key_error fl fz (region : string) (v : pyval)
    (s : state) :
  mem_data s !! region = Some v ->
  mem_data s !! "region" = None ->
  get_region_data fl fz region s = (s, inl (KeyError "region")).
Proof.
  intros Hm Hr. unfold get_region_data, bind, get_state, raise.
  cbv beta iota. rewrite Hm, Hr. reflexivity.
Qed.

Lemma memory_hit_raises_key_error_witness :
  get_region_data no_links no_zip "PHA"
    (mkState true [] {[ "PHA" := PyNone ]} [])
  = (mkState true [] {[ "PHA" := PyNone ]} [], inl (KeyError "region")).
Proof.
  apply (memory_hit_raises_key_error no_links no_zip "PHA" PyNone);
    vm_compute; reflexivity.
Defined.

(** C6 (counterexample): served from the disk artifact, [PHA] is not put in
    the memory map; served by a fresh parse, it is. *)
Lemma memory_tier_counterexample :
  mem_data (fst (get_region_data no_links no_zip "PHA"
    (mkState true [("data_PHA.pkl.gz", FCache PyNone)] ∅ []))) !! "PHA" = None /\
  mem_data (fst (get_region_data no_links no_zip "PHA" fresh_state)) !! "PHA" <> None.
Proof. split; vm_compute; [reflexivity|discriminate]. Qed.

(** C6 (amended): only the cold-miss path fills the memory map.  A lookup
    served from the disk artifact returns the stored value and leaves the
    state, the memory map included, unchanged; a fresh parse is written to
    the disk artifact and inserted in the memory map under its region. *)
Theorem only_cold_miss_fills_memory fl fz (region : string) (s : state) :
  mem_data s !! region = None ->
  (forall v, file_at (cache_name region) (files s) = Some (FCache v) ->
     get_region_data fl fz region s = (s, inr v)) /\
  (file_at (cache_name region) (files s) = None ->
     forall s1 d, parse_region_data fl fz region s = (s1, inr d) ->
     let s2 := fst (get_region_data fl fz region s) in
     snd (get_region_data fl fz region s) = inr d /\
     mem_data s2 = <[region := d]> (mem_data s) /\
     file_at (cache_name region) (files s2) = Some (FCache d)).
Proof.
  intros Hm. split.
  - intros v Hf. exact (CacheFacts.get_region_data_disk_hit fl fz region s v Hm Hf).
  - intros Hf s1 d Hp.
    rewrite (CacheFacts.get_region_data_cold fl fz region s s1 d Hm Hf Hp).
    cbn zeta. simpl. repeat split.
    + pose proof (CacheFacts.parse_region_data_mem fl fz region s) as E.
      rewrite Hp in E. simpl in E. rewrite E. reflexivity.
    + apply CacheFacts.file_at_write.
Qed.

Lemma only_cold_miss_fills_memory_witness :
  get_region_data no_links no_zip "PHA"
    (mkState true [("data_PHA.pkl.gz", FCache PyNone)] ∅ [])
  = (mkState true [("data_PHA.pkl.gz", FCache PyNone)] ∅ [], inr PyNone).
Proof.
  refine (proj1 (only_cold_miss_fills_memory no_links no_zip "PHA"
    (mkState true [("data_PHA.pkl.gz", FCache PyNone)] ∅ []) _) _ _);
    vm_compute; reflexivity.
Defined.

(** C7: a region parsed on a cold miss is written to its cache artifact;
    reading the artifact back, from any instance whose memory map does not
    hold the region and whose folder is the one left by the write, gives the
    very value the parse returned: header, rows and every cell.  The pickled
    and gzipped artifact is modelled by the value it stores. *)
Theorem cache_write_read_roundtrip fl fz (region : string)
    (s s1 s' : state) (d : pyval) :
  mem_data s !! region = None ->
  file_at (cache_name region) (files s) = None ->
  parse_region_data fl fz region s = (s1, inr d) ->
  files s' = files (fst (get_region_data fl fz region s)) ->
  mem_data s' !! region = None ->
  snd (get_region_data fl fz region s) = inr d /\
  get_region_data fl fz region s' = (s', inr d).
Proof.
  intros Hm Hf Hp Hfiles Hm'.
  rewrite (CacheFacts.get_region_data_cold fl fz region s s1 d Hm Hf Hp) in Hfiles |- *.
  simpl in Hfiles. split; [reflexivity|].
  apply CacheFacts.get_region_data_disk_hit; [exact Hm'|].
  rewrite Hfiles. apply CacheFacts.file_at_write.
Qed.

Lemma cache_write_read_roundtrip_witness :
  snd (get_region_data no_links no_zip "PHA" fresh_state) = inr parsed_pha /\
  get_region_data no_links no_zip "PHA" restarted_state
    = (restarted_state, inr parsed_pha).
Proof.
  apply (cache_write_read_roundtrip no_links no_zip "PHA" fresh_state
           parsed_state restarted_state parsed_pha);
    vm_compute; reflexivity.
Defined.

(** C8: for a region outside the fourteen, [parse_region_data] logs exactly
    one warning and returns [None], not a table. *)
Theorem unknown_region_absent fl fz (region : string) (s : state) :
  assoc_get region region_file = None ->
  snd (parse_region_data fl fz region s) = inr PyNone /\
  log (fst (parse_region_data fl fz region s))
    = log s ++ [String.append region " is not in region list"].
Proof.
  intros H. unfold parse_region_data, bind, get_state. cbv beta iota.
  assert (Hd : exists s1,
    (if folder_exists s && folder_contains_zip s then ret tt
     else download_data fl fz) s = (s1, inr tt) /\ log s1 = log s).
  { destruct (folder_exists s && folder_contains_zip s).
    - eexists. split; reflexivity.
    - apply CacheFacts.download_data_ok. }
  destruct Hd as (s1 & E & L). rewrite E. cbv beta iota. rewrite H.
  simpl. rewrite L. split; reflexivity.
Qed.

Lemma unknown_region_absent_witness :
  snd (parse_region_data no_links no_zip "XYZ" fresh_state) = inr PyNone /\
  log (fst (parse_region_data no_links no_zip "XYZ" fresh_state))
    = log fresh_state ++ [String.append "XYZ" " is not in region list"].
Proof. apply unknown_region_absent. vm_compute. reflexivity. Defined.

(** C9 (code bug): on [fresh_state] the single-region lists give 2 and 3
    records and [get_list(['PHA', 'STC'])] gives 5; but that call fills the
    memory map, so [get_list(['PHA'])] on the same instance raises
    [KeyError('region')] (the defect of C5), and so does
    [get_list(['PHA', 'PHA'])] on a fresh instance. *)
Theorem get_list_merge_hits_memory_bug :
  record_count (snd (get_list no_links no_zip ["PHA"] fresh_state)) = Some 2 /\
  record_count (snd (get_list no_links no_zip ["STC"] fresh_state)) = Some 3 /\
  record_count (snd (get_list no_links no_zip ["PHA"; "STC"] fresh_state)) = Some 5 /\
  snd (get_list no_links no_zip ["PHA"]
         (fst (get_list no_links no_zip ["PHA"; "STC"] fresh_state)))
    = inl (KeyError "region") /\
  snd (get_list no_links no_zip ["PHA"; "PHA"] fresh_state) = inl (KeyError "region").
Proof. repeat split; vm_compute; reflexivity. Qed.

(* ------------------------------------------------------------------ *)
(** ** Further facts of the downloader and of its caller *)

Module SelectorLemmas.

Lemma m_re_zip_off_start {R} (n0 : nat) (s : list ascii) (cs : caps)
    (k : list ascii -> caps -> option R) :
  length s <> n0 -> m re_zip n0 s cs k = None.
Proof.
  intros H. unfold re_zip. cbn [m].
  apply Nat.eqb_neq in H. rewrite H. reflexivity.
Qed.

Lemma search_from_off_start (n0 : nat) (s : list ascii) :
  length s < n0 -> search_from re_zip n0 s = None.
Proof.
  induction s as [|c s IH]; intros H; cbn [search_from];
    rewrite m_re_zip_off_start by lia; [reflexivity|].
  apply IH. simpl in H. lia.
Qed.

Lemma latest_filter (links : list string) (last_match : option match_obj) :
  latest_zip_urls_from links last_match
  = latest_zip_urls_from (List.filter is_zip_link links) last_match.
Proof.
  revert last_match.
  induction links as [|l links IH]; intros last_match; [reflexivity|].
  cbn [List.filter latest_zip_urls_from]. unfold is_zip_link at 1.
  destruct (re_search re_zip l) as [mt|] eqn:E; [|apply IH].
  cbn [latest_zip_urls_from]. rewrite E.
  destruct last_match; rewrite IH; reflexivity.
Qed.

Lemma latest_in (links : list string) (last_match : option match_obj) (u : string) :
  In u (latest_zip_urls_from links last_match) ->
  (exists lm, last_match = Some lm /\ u = group_s lm 0) \/
  (exists l mo, In l links /\ re_search re_zip l = Some mo /\ u = group_s mo 0).
Proof.
  revert last_match.
  induction links as [|l links IH]; intros last_match H.
  - left. destruct last_match as [lm|]; [|destruct H].
    destruct H as [<-|[]]. eauto.
  - cbn [latest_zip_urls_from] in H.
    destruct (re_search re_zip l) as [mt|] eqn:E.
    + assert (Hrec : In u (latest_zip_urls_from links (Some mt)) ->
                     exists l0 mo, In l0 (l :: links) /\
                       re_search re_zip l0 = Some mo /\ u = group_s mo 0).
      { intros Hin. destruct (IH _ Hin) as [(lm & [= <-] & ->)|(l0 & mo & Hl & Hs & ->)].
        - exists l, mt. simpl. auto.
        - exists l0, mo. simpl. auto. }
      destruct last_match as [lm|]; [|right; exact (Hrec H)].
      apply in_app_or in H. destruct H as [H|H]; [|right; exact (Hrec H)].
      left. exists lm. split; [reflexivity|].
      repeat match goal with
             | H : In _ (if ?c then _ else _) |- _ => destruct c
             end; simpl in H; intuition.
    + destruct (IH _ H) as [Hl|(l0 & mo & Hl & Hs & ->)]; [left; exact Hl|].
      right. exists l0, mo. simpl. auto.
Qed.

Lemma latest_unmatched (links : list string) (last_match : option match_obj) :
  (forall l, In l links -> re_search re_zip l = None) ->
  latest_zip_urls_from links last_match = latest_zip_urls_from [] last_match.
Proof.
  intros H. induction links as [|l links IH]; [reflexivity|].
  cbn [latest_zip_urls_from]. rewrite (H l (or_introl eq_refl)).
  apply IH. intros l' Hl'. apply H. right. exact Hl'.
Qed.

Lemma latest_last (pre post : list string) (l : string) (mo : match_obj)
    (last_match : option match_obj) :
  re_search re_zip l = Some mo ->
  (forall l', In l' post -> re_search re_zip l' = None) ->
  exists xs, latest_zip_urls_from (pre ++ l :: post) last_match = xs ++ [group_s mo 0].
Proof.
  intros Hl Hpost. revert last_match.
  induction pre as [|p pre IH]; intros last_match.
  - cbn [app latest_zip_urls_from]. rewrite Hl.
    rewrite (latest_unmatched post (Some mo) Hpost). cbn [latest_zip_urls_from].
    destruct last_match as [lm|]; [eexists; reflexivity|exists []; reflexivity].
  - cbn [app latest_zip_urls_from].
    destruct (re_search re_zip p) as [mt|]; [|apply IH].
    destruct last_match as [lm|]; [|apply IH].
    destruct (IH (Some mt)) as [xs ->]. eexists. rewrite app_assoc. reflexivity.
Qed.

Lemma latest_some_nonempty (links : list string) (lm : match_obj) :
  latest_zip_urls_from links (Some lm) <> [].
Proof.
  revert lm. induction links as [|l links IH]; intros lm; cbn [latest_zip_urls_from];
    [discriminate|].
  destruct (re_search re_zip l) as [mt|]; [|apply IH].
  intros H. apply app_eq_nil in H. exact (IH mt (proj2 H)).
Qed.

Lemma latest_length (links : list string) (last_match : option match_obj) :
  length (latest_zip_urls_from links last_match)
  <= length (List.filter is_zip_link links) + (if last_match then 1 else 0).
Proof.
  revert last_match.
  induction links as [|l links IH]; intros last_match.
  - destruct last_match; simpl; lia.
  - cbn [latest_zip_urls_from].
    change (List.filter is_zip_link (l :: links)) with
      (if is_zip_link l then l :: List.filter is_zip_link links
       else List.filter is_zip_link links).
    destruct (is_zip_link l) eqn:Z; unfold is_zip_link in Z;
      destruct (re_search re_zip l) as [mt|]; try discriminate.
    2: apply IH.
    specialize (IH (Some mt)). cbv iota in IH. destruct last_match as [lm|]; [|cbn [length]; lia].
    rewrite length_app.
    assert (length (if str_ltb (group_s lm 2) (group_s mt 2) then
                  if truthy (group lm 1) && truthy (group mt 1)
                     && str_ltb (group_s mt 1) (group_s lm 1)
                  then [group_s lm 0]
                  else if str_ltb (group_s mt 0) (group_s lm 0)
                  then [group_s lm 0]
                  else []
                else []) <= 1)
      by (repeat case_match; simpl; lia).
    cbn [length]. lia.
Qed.

Lemma strip_field_clean (v : string) (c : ascii) :
  In c (list_ascii_of_string (strip_field v)) -> c <> quote_char /\ c <> ","%char.
Proof.
  unfold strip_field. rewrite list_ascii_of_string_of_list_ascii.
  intros H. apply in_map_iff in H. destruct H as (x & <- & Hx).
  apply filter_In in Hx. destruct Hx as [_ Hq].
  destruct (ascii_eqb x ","%char) eqn:Ec.
  - split; discriminate.
  - apply negb_true_iff in Hq. split; intros ->.
    + unfold ascii_eqb in Hq. rewrite Ascii.eqb_refl in Hq. discriminate.
    + unfold ascii_eqb in Ec. rewrite Ascii.eqb_refl in Ec. discriminate.
Qed.

End SelectorLemmas.

(** X1: Anchoring: [re_zip] starts with [^], so [re_zip.search] (used by
    [parse_region_data]) and [re_zip.match] (used by [folder_contains_zip])
    agree on every file name. *)
Theorem re_zip_search_is_match (subj : string) :
  re_search re_zip subj = re_match re_zip subj.
Proof.
  unfold re_search, re_match. cbv zeta.
  destruct (list_ascii_of_string subj) as [|c l]; cbn [search_from].
  - destruct (m re_zip _ [] [] _); reflexivity.
  - destruct (m re_zip (length (c :: l)) (c :: l) [] (finish (c :: l))); [reflexivity|].
    apply SelectorLemmas.search_from_off_start. simpl. lia.
Qed.

(** X2: The selector ignores links that do not match [re_zip]: removing them
    does not change what it yields. *)
Theorem selector_ignores_unmatched (links : list string) :
  get_latest_zip_urls links = get_latest_zip_urls (List.filter is_zip_link links).
Proof. apply SelectorLemmas.latest_filter. Qed.

(** X3: Every URL the selector yields is the text matched by [re_zip] in one
    of the scraped links. *)
Theorem selector_yields_matched_text (links : list string) (u : string) :
  In u (get_latest_zip_urls links) ->
  exists l mo, In l links /\ re_search re_zip l = Some mo /\ u = group_s mo 0.
Proof.
  intros H. destruct (SelectorLemmas.latest_in links None u H)
    as [(lm & [=] & _)|Hr]; exact Hr.
Qed.

Lemma selector_yields_matched_text_witness :
  In "datagis-2020.zip" (get_latest_zip_urls ["x.html"; "datagis-2020.zip"]) /\
  exists l mo, In l ["x.html"; "datagis-2020.zip"] /\
    re_search re_zip l = Some mo /\ "datagis-2020.zip" = group_s mo 0.
Proof.
  split; [vm_compute; auto|].
  apply selector_yields_matched_text. vm_compute. auto.
Defined.

(** X4: The held candidate is always flushed at the end: the text matched in
    the last matching link is the last URL the selector yields. *)
Theorem selector_yields_last_match (pre post : list string) (l : string)
    (mo : match_obj) :
  re_search re_zip l = Some mo ->
  (forall l', In l' post -> re_search re_zip l' = None) ->
  exists xs, get_latest_zip_urls (pre ++ l :: post) = xs ++ [group_s mo 0].
Proof. apply SelectorLemmas.latest_last. Qed.

Lemma selector_yields_last_match_witness :
  re_search re_zip "datagis-2020.zip" = Some (the_match "datagis-2020.zip") /\
  exists xs, get_latest_zip_urls (["datagis-2019.zip"] ++ "datagis-2020.zip" :: ["x.html"])
             = xs ++ [group_s (the_match "datagis-2020.zip") 0].
Proof.
  assert (H : re_search re_zip "datagis-2020.zip" = Some (the_match "datagis-2020.zip"))
    by (vm_compute; reflexivity).
  split; [exact H|].
  apply selector_yields_last_match; [exact H|].
  intros l' [<-|[]]. vm_compute. reflexivity.
Defined.

(** X5: The selector yields nothing exactly when no link matches [re_zip]. *)
Theorem selector_empty_iff_no_match (links : list string) :
  get_latest_zip_urls links = [] <->
  (forall l, In l links -> re_search re_zip l = None).
Proof.
  split.
  - unfold get_latest_zip_urls.
    induction links as [|l links IH]; intros H l' Hl'; [destruct Hl'|].
    cbn [latest_zip_urls_from] in H.
    destruct (re_search re_zip l) as [mt|] eqn:E.
    + exfalso. exact (SelectorLemmas.latest_some_nonempty links mt H).
    + destruct Hl' as [<-|Hl']; [exact E|exact (IH H l' Hl')].
  - intros H. unfold get_latest_zip_urls.
    rewrite (SelectorLemmas.latest_unmatched links None H). reflexivity.
Qed.

(** X6: The selector yields at most one URL per matching link. *)
Theorem selector_length_bound (links : list string) :
  length (get_latest_zip_urls links) <= length (List.filter is_zip_link links).
Proof.
  pose proof (SelectorLemmas.latest_length links None) as H. cbv iota in H. rewrite Nat.add_0_r in H. exact H.
Qed.

(** X7: The converter removes every double quote and every comma: no value it
    returns contains either character. *)
Theorem converter_output_clean (idx : nat) (v : string) :
  ~ In quote_char (list_ascii_of_string (converter idx v)) /\
  ~ In ","%char (list_ascii_of_string (converter idx v)).
Proof.
  assert (Hs := SelectorLemmas.strip_field_clean v).
  unfold converter.
  destruct (dtype_eqb (type_at idx) Int8 && String.eqb (strip_field v) "XX").
  { cbn. unfold quote_char. split; intros [H|[]]; discriminate. }
  destruct (String.eqb (strip_field v) "").
  { destruct (is_U (type_at idx)); cbn; [split; intros []|].
    unfold quote_char. split; intros [H|[]]; discriminate. }
  split; intros H; apply Hs in H; tauto.
Qed.

Module ParseLemmas.

Lemma bind_get {B} (g : state -> M B) (s : state) : bind get_state g s = g s s.
Proof. reflexivity. Qed.

Lemma bind_inr {A B} (x : M A) (k : A -> M B) (s : state) (b : B) :
  snd (bind x k s) = inr b -> exists a s1, x s = (s1, inr a) /\ snd (k a s1) = inr b.
Proof. unfold bind. destruct (x s) as [s1 [e|a]]; simpl; [discriminate|eauto]. Qed.

Lemma bind_frame_after {X A B} (f : state -> X) (x : M A) (k : A -> M B) (s : state) :
  (forall a, CacheFacts.frame f (k a)) -> f (fst (bind x k s)) = f (fst (x s)).
Proof. intros Hk. unfold bind. destruct (x s) as [s1 [e|a]]; [reflexivity|apply Hk]. Qed.

Lemma convert_fields_length (idx : nat) (l : list string) :
  length (convert_fields idx l) = length l.
Proof. revert idx. induction l as [|v l IH]; intros idx; simpl; [reflexivity|congruence]. Qed.

Lemma filter_map_split (lines : list string) :
  List.filter (fun vs => negb (Nat.eqb (length vs) 0)) (map split_line lines)
  = map split_line (List.filter has_values lines).
Proof.
  induction lines as [|l lines IH]; [reflexivity|].
  cbn [map List.filter]. unfold has_values at 1.
  destruct (negb _); cbn [map]; congruence.
Qed.

Lemma genfromtxt_inr (lines : list string) (a : arr) :
  genfromtxt lines = inr a ->
  exists rows,
    a = match rows with [r] => A1 r | _ => A2 rows end /\
    length rows = length (List.filter has_values lines) /\ rows <> [] /\
    (forall r, In r rows -> length r = 64).
Proof.
  unfold genfromtxt. rewrite filter_map_split.
  destruct (map split_line (List.filter has_values lines)) as [|first rest] eqn:HR;
    [discriminate|].
  destruct (Nat.ltb (length first) 64); [discriminate|].
  destruct (existsb (fun vs => Nat.ltb (length vs) 64) (first :: rest)) eqn:Ex;
    [discriminate|].
  intros H. injection H as <-.
  exists (map (fun vs => convert_fields 0 (firstn 64 vs)) (first :: rest)).
  split; [reflexivity|]. split.
  { rewrite length_map, <- (length_map split_line), HR. reflexivity. }
  split; [discriminate|].
  intros r Hr. apply in_map_iff in Hr. destruct Hr as (vs & <- & Hvs).
  rewrite convert_fields_length.
  destruct (Nat.ltb (length vs) 64) eqn:E.
  - assert (Ht : existsb (fun vs => Nat.ltb (length vs) 64) (first :: rest) = true)
      by (apply existsb_exists; eauto).
    congruence.
  - apply Nat.ltb_ge in E. rewrite length_firstn. lia.
Qed.

Lemma genfromtxt_short (lines : list string) (line : string) :
  In line lines -> 0 < length (split_line line) < 64 ->
  genfromtxt lines =
  inl (if Nat.ltb (length (split_line (hd "" (List.filter has_values lines)))) 64
       then IndexError "list index out of range"
       else ValueError "Some errors were detected").
Proof.
  intros Hin Hl.
  assert (Hin' : In line (List.filter has_values lines)).
  { apply filter_In. split; [exact Hin|]. unfold has_values.
    rewrite (proj2 (Nat.eqb_neq _ _)) by lia. reflexivity. }
  unfold genfromtxt. rewrite filter_map_split.
  destruct (List.filter has_values lines) as [|l0 rest]; [destruct Hin'|].
  cbn [map hd].
  destruct (Nat.ltb (length (split_line l0)) 64) eqn:E; [reflexivity|].
  rewrite (proj2 (existsb_exists _ _)); [reflexivity|].
  exists (split_line line). split.
  - exact (in_map split_line (l0 :: rest) line Hin').
  - apply Nat.ltb_lt. lia.
Qed.

Lemma warn_files (msg : string) : CacheFacts.frame files (warn msg).
Proof. intros s. reflexivity. Qed.

Lemma parse_zip_file_files (zip_fname region : string) :
  CacheFacts.frame files (parse_zip_file zip_fname region).
Proof.
  unfold parse_zip_file, warn, genfromtxt, cast_loop, astype. CacheFacts.frame_tac.
Qed.

Lemma download_data_folder fl fz (s : state) :
  folder_exists (fst (download_data fl fz s)) = true.
Proof.
  unfold download_data. unfold bind at 1, modify at 1. cbn [fst snd].
  refine (CacheFacts.frame_iterM folder_exists _ _ _ 0 _).
  intros i a. apply CacheFacts.frame_modify. reflexivity.
Qed.

Lemma file_at_write_other (name n : string) (f : file) (fs : list (string * file)) :
  n <> name -> file_at name (write_file n f fs) = file_at name fs.
Proof.
  intros Hn. induction fs as [|[n' g] fs IH]; simpl.
  - apply String.eqb_neq in Hn. rewrite Hn. reflexivity.
  - destruct (String.eqb_spec n' n) as [->|Hn']; simpl.
    + apply String.eqb_neq in Hn. rewrite Hn. reflexivity.
    + destruct (String.eqb n' name); [reflexivity|exact IH].
Qed.

Lemma last_url_for_acc (name : string) (us : list string) (acc : option string) :
  fold_left (fun acc u => if String.eqb (basename u) name then Some u else acc) us acc
  = match last_url_for name us with Some u => Some u | None => acc end.
Proof.
  unfold last_url_for. revert acc.
  induction us as [|u us IH]; intros acc; [reflexivity|]. cbn [fold_left].
  rewrite (IH (if String.eqb (basename u) name then Some u else acc)),
          (IH (if String.eqb (basename u) name then Some u else None)).
  destruct (fold_left _ us None); [reflexivity|].
  destruct (String.eqb (basename u) name); reflexivity.
Qed.

Lemma last_url_for_cons (name u : string) (us : list string) :
  last_url_for name (u :: us)
  = match last_url_for name us with
    | Some v => Some v
    | None => if String.eqb (basename u) name then Some u else None
    end.
Proof. unfold last_url_for at 1. cbn [fold_left]. apply last_url_for_acc. Qed.

Lemma iterM_download_files fz (name : string) (urls : list string) :
  forall idx s,
  file_at name (files (fst (iterM (fun _ zip_url =>
     modify (fun s => set_files (write_file (basename zip_url)
                                   (FZip (fz zip_url)) (files s)) s)) idx urls s)))
  = match last_url_for name urls with
    | Some u => Some (FZip (fz u))
    | None => file_at name (files s)
    end.
Proof.
  induction urls as [|u us IH]; intros idx s; [reflexivity|].
  cbn [iterM]. unfold bind at 1, modify at 1. rewrite IH, last_url_for_cons.
  destruct (last_url_for name us); [reflexivity|]. cbn [files set_files].
  destruct (String.eqb_spec (basename u) name) as [<-|Hn].
  - apply CacheFacts.file_at_write.
  - apply file_at_write_other. exact Hn.
Qed.

Lemma mapM_single {A B} (g : A -> M B) (x : A) (s : state) :
  mapM g [x] s = match g x s with
                 | (s1, inl e) => (s1, inl e)
                 | (s1, inr y) => (s1, inr [y])
                 end.
Proof. cbn [mapM]. unfold bind, ret. destruct (g x s) as [s1 [e|y]]; reflexivity. Qed.

Lemma region_table_eq fl fz (region : string) (s : state) :
  region_table fl fz region s =
  match get_region_data fl fz region s with
  | (s1, inl e) => (s1, inl e)
  | (s1, inr PyNone) => (s1, inl (TypeError "'NoneType' object is not subscriptable"))
  | (s1, inr (PyPair _ a)) => (s1, inr a)
  end.
Proof.
  unfold region_table, bind. destruct (get_region_data fl fz region s) as [s1 [e|[|h a]]];
    reflexivity.
Qed.

Lemma get_list_eq fl fz (r : string) (rs : list string) (s : state) :
  get_list fl fz (r :: rs) s =
  match mapM (region_table fl fz) (r :: rs) s with
  | (s1, inl e) => (s1, inl e)
  | (s1, inr ts) =>
      (s1, match concatenate1 ts with inl e => inl e | inr a => inr (header, a) end)
  end.
Proof.
  unfold get_list. cbv zeta iota beta. unfold bind at 1.
  destruct (mapM (region_table fl fz) (r :: rs) s) as [s1 [e|ts]]; [reflexivity|].
  unfold bind, lift, ret. destruct (concatenate1 ts); reflexivity.
Qed.

Lemma parse_unknown fl fz (region : string) (s : state) :
  assoc_get region region_file = None ->
  exists s1, parse_region_data fl fz region s = (s1, inr PyNone).
Proof.
  intros H. unfold parse_region_data, bind, get_state. cbv beta iota.
  assert (Hd : exists s1,
    (if folder_exists s && folder_contains_zip s then ret tt
     else download_data fl fz) s = (s1, inr tt)).
  { destruct (folder_exists s && folder_contains_zip s).
    - eexists. reflexivity.
    - destruct (CacheFacts.download_data_ok fl fz s) as (s1 & E & _). eauto. }
  destruct Hd as (s1 & E). rewrite E. cbv beta iota. rewrite H.
  eexists. reflexivity.
Qed.

Lemma mapM_region_table_warm fl fz (regions : list string) (s : state)
    (hdr : string -> list string) (tbl : string -> list (list string)) :
  (forall r, In r regions -> mem_data s !! r = None /\
     file_at (cache_name r) (files s) = Some (FCache (PyPair (hdr r) (A2 (tbl r))))) ->
  mapM (region_table fl fz) regions s = (s, inr (map (fun r => A2 (tbl r)) regions)).
Proof.
  induction regions as [|r rs IH]; intros H; [reflexivity|].
  cbn [mapM]. unfold bind at 1.
  destruct (H r (or_introl eq_refl)) as [Hm Hf].
  rewrite region_table_eq, (CacheFacts.get_region_data_disk_hit fl fz r s _ Hm Hf).
  cbv beta iota. unfold bind. rewrite IH by (intros r' Hr'; apply H; right; exact Hr').
  reflexivity.
Qed.

Lemma all_rows_A2 (tbl : string -> list (list string)) (rs : list string) :
  all_rows (map (fun r => A2 (tbl r)) rs) = Some (map tbl rs).
Proof. induction rs as [|r rs IH]; simpl; [reflexivity|]. rewrite IH. reflexivity. Qed.

Lemma hcat_spec (a b : list (list string)) :
  length a = length b ->
  length (hcat a b) = length a /\ forall j, nth j (hcat a b) [] = nth j a [] ++ nth j b [].
Proof.
  unfold hcat. revert b.
  induction a as [|x a IH]; intros [|y b] H; try discriminate H.
  - split; [reflexivity|]. intros [|j]; reflexivity.
  - injection H as H. destruct (IH b H) as [L N]. cbn [zip_with length].
    split; [rewrite L; reflexivity|]. intros [|j]; [reflexivity|apply N].
Qed.

Lemma fold_hcat (tbl : string -> list (list string)) (rs : list string) :
  forall acc, length acc = 65 -> (forall r, In r rs -> length (tbl r) = 65) ->
  length (fold_left hcat (map tbl rs) acc) = 65 /\
  forall j, nth j (fold_left hcat (map tbl rs) acc) []
            = nth j acc [] ++ flat_map (fun r => nth j (tbl r) []) rs.
Proof.
  induction rs as [|r rs IH]; intros acc Ha Hr.
  - split; [exact Ha|]. intros j. rewrite app_nil_r. reflexivity.
  - cbn [map fold_left flat_map].
    destruct (hcat_spec acc (tbl r)) as [L N]; [rewrite Ha, Hr by (left; reflexivity); reflexivity|].
    destruct (IH (hcat acc (tbl r))) as [L' N'];
      [congruence|intros r' Hr'; apply Hr; right; exact Hr'|].
    split; [exact L'|]. intros j. rewrite N', N, app_assoc. reflexivity.
Qed.

Lemma forallb_65 (tbl : string -> list (list string)) (r0 : string) (rs : list string) :
  length (tbl r0) = 65 -> (forall r, In r rs -> length (tbl r) = 65) ->
  forallb (fun r => Nat.eqb (length r) (length (tbl r0))) (map tbl rs) = true.
Proof.
  intros H0 H. apply forallb_forall. intros t Ht. apply in_map_iff in Ht.
  destruct Ht as (r & <- & Hr). rewrite H0, H by exact Hr. reflexivity.
Qed.

Definition counts_positive (count : gmap string (gmap string nat)) : Prop :=
  forall y inner r k, count !! y = Some inner -> inner !! r = Some k -> 0 < k.

Lemma count_add_lookup (y r : string) (c : gmap string (gmap string nat)) (y' r' : string) :
  default 0 (count_add y r c !! y' ≫= (fun inner => inner !! r'))
  = default 0 (c !! y' ≫= (fun inner => inner !! r'))
    + (if String.eqb y y' && String.eqb r r' then 1 else 0).
Proof.
  unfold count_add. destruct (String.eqb_spec y y') as [<-|Hy]; cbn [andb].
  - rewrite lookup_insert_eq. cbn [mbind option_bind].
    destruct (String.eqb_spec r r') as [<-|Hr].
    + rewrite lookup_insert_eq. destruct (c !! y) as [inner|]; cbn.
      * destruct (inner !! r); simpl; lia.
      * rewrite lookup_empty. simpl. lia.
    + rewrite lookup_insert_ne by congruence.
      destruct (c !! y) as [inner|]; cbn; [lia|]. rewrite lookup_empty. simpl. lia.
  - rewrite lookup_insert_ne by congruence. lia.
Qed.

Lemma count_add_positive (y r : string) (c : gmap string (gmap string nat)) :
  counts_positive c -> counts_positive (count_add y r c).
Proof.
  intros H y' inner r' k Hy Hr. unfold count_add in Hy.
  destruct (String.eqb_spec y y') as [<-|Hne].
  - rewrite lookup_insert_eq in Hy. injection Hy as <-.
    destruct (String.eqb_spec r r') as [<-|Hne'].
    + rewrite lookup_insert_eq in Hr. injection Hr as <-. lia.
    + rewrite lookup_insert_ne in Hr by congruence.
      destruct (c !! y) as [inner0|] eqn:Ec; cbn in Hr.
      * exact (H y inner0 r' k Ec Hr).
      * rewrite lookup_empty in Hr. discriminate.
  - rewrite lookup_insert_ne in Hy by congruence. exact (H y' inner r' k Hy Hr).
Qed.

Definition count_step (rows : list (list string))
    (c : gmap string (gmap string nat)) (idx : nat) : gmap string (gmap string nat) :=
  count_add (record_year rows idx) (record_region rows idx) c.

Lemma count_loop_fold (rows : list (list string)) :
  65 <= length rows ->
  (forall row, In row rows -> length row = length (hd [] rows)) ->
  forall idxs c, (forall idx, In idx idxs -> idx < length (hd [] rows)) ->
  count_loop rows idxs c = inr (fold_left (count_step rows) idxs c).
Proof.
  intros Hlen Hrect idxs. induction idxs as [|idx idxs IH]; intros c Hi; [reflexivity|].
  assert (H3 : nth_error rows 3 = Some (nth 3 rows [])) by (apply nth_error_nth'; lia).
  assert (H64 : nth_error rows 64 = Some (nth 64 rows [])) by (apply nth_error_nth'; lia).
  assert (Hidx : idx < length (hd [] rows)) by (apply Hi; left; reflexivity).
  assert (L3 : length (nth 3 rows []) = length (hd [] rows)) by (apply Hrect, nth_In; lia).
  assert (L64 : length (nth 64 rows []) = length (hd [] rows)) by (apply Hrect, nth_In; lia).
  cbn [count_loop]. rewrite H3. cbn [mbind option_bind].
  rewrite (nth_error_nth' (nth 3 rows []) "") by lia.
  rewrite H64. cbn [mbind option_bind].
  rewrite (nth_error_nth' (nth 64 rows []) "") by lia.
  apply IH. intros i Hin. apply Hi. right. exact Hin.
Qed.

Lemma count_fold_lookup (rows : list (list string)) (y r : string) (idxs : list nat) :
  forall c,
  default 0 (fold_left (count_step rows) idxs c !! y ≫= (fun inner => inner !! r))
  = default 0 (c !! y ≫= (fun inner => inner !! r))
    + length (List.filter (fun idx => String.eqb (record_year rows idx) y
                                      && String.eqb (record_region rows idx) r) idxs).
Proof.
  induction idxs as [|idx idxs IH]; intros c; [simpl; lia|].
  cbn [fold_left List.filter]. rewrite IH. unfold count_step. rewrite count_add_lookup.
  destruct (String.eqb _ y && String.eqb _ r); simpl; lia.
Qed.

Lemma count_fold_positive (rows : list (list string)) (idxs : list nat) :
  forall c, counts_positive c -> counts_positive (fold_left (count_step rows) idxs c).
Proof.
  induction idxs as [|idx idxs IH]; intros c H; [exact H|].
  apply IH. apply count_add_positive. exact H.
Qed.

End ParseLemmas.

Module ShapeLemmas.

Lemma parse_zip_file_shape (zip_fname region : string) (s : state) (a : arr) :
  snd (parse_zip_file zip_fname region s) = inr a ->
  exists entries csv_name,
    file_at zip_fname (files s) = Some (FZip entries) /\
    assoc_get region region_file = Some csv_name /\
    ((assoc_get csv_name entries = None /\ a = A1 []) \/
     (exists lines rows,
        assoc_get csv_name entries = Some lines /\ a = A2 rows /\
        2 <= length (List.filter has_values lines) /\ length rows = 65 /\
        (forall row, In row rows -> length row = length (List.filter has_values lines)) /\
        nth 64 rows [] = repeat region (length (List.filter has_values lines)))).
Proof.
  unfold parse_zip_file. rewrite ParseLemmas.bind_get. intros H.
  destruct (file_at zip_fname (files s)) as [[entries|v]|] eqn:Ef; try discriminate H.
  destruct (assoc_get region region_file) as [csv|] eqn:Er; [|discriminate H].
  exists entries, csv. split; [reflexivity|]. split; [reflexivity|].
  destruct (assoc_get csv entries) as [lines|] eqn:El.
  2: { left. split; [reflexivity|]. unfold bind, warn, modify, ret in H.
       injection H as <-. reflexivity. }
  right. exists lines.
  apply ParseLemmas.bind_inr in H. destruct H as (data0 & s1 & Hg & H).
  apply ParseLemmas.bind_inr in H. destruct H as ([] & s2 & _ & H).
  assert (Hg2 : genfromtxt lines = inr data0) by (unfold lift in Hg; congruence).
  apply ParseLemmas.genfromtxt_inr in Hg2.
  destruct Hg2 as (conv & -> & Hlen & Hne & H64).
  destruct conv as [|r1 [|r2 rest]]; [congruence|simpl in H; discriminate H|].
  assert (L1 : length r1 = 64) by (apply H64; left; reflexivity).
  cbn [transpose_arr hd] in H. rewrite L1 in H. unfold ret in H. injection H as <-.
  set (conv := r1 :: r2 :: rest) in *.
  set (cols := map (fun j => map (fun r => nth j r "") conv) (seq 0 64)).
  assert (Lc : length cols = 64) by (unfold cols; rewrite length_map, length_seq; reflexivity).
  assert (Hh : length (hd [] cols) = length conv)
    by (unfold cols; cbn [seq map hd]; rewrite length_map; reflexivity).
  exists (cols ++ [repeat region (length (hd [] cols))]).
  split; [reflexivity|]. split; [reflexivity|].
  split; [rewrite <- Hlen; simpl; lia|].
  split; [rewrite length_app, Lc; reflexivity|].
  split.
  - intros row Hrow. apply in_app_or in Hrow. destruct Hrow as [Hrow|[<-|[]]].
    + unfold cols in Hrow. apply in_map_iff in Hrow. destruct Hrow as (j & <- & _).
      rewrite length_map. exact Hlen.
    + rewrite repeat_length, Hh. exact Hlen.
  - rewrite app_nth2 by lia. rewrite Lc. cbn [Nat.sub nth]. rewrite Hh, Hlen. reflexivity.
Qed.

Lemma mapM_inr {A B} (g : A -> M B) (l : list A) :
  forall s ys, snd (mapM g l s) = inr ys ->
  Forall2 (fun x y => exists s', snd (g x s') = inr y) l ys.
Proof.
  induction l as [|x l IH]; intros s ys H.
  - injection H as <-. constructor.
  - cbn [mapM] in H. apply ParseLemmas.bind_inr in H. destruct H as (y & s1 & Hx & H).
    apply ParseLemmas.bind_inr in H. destruct H as (ys' & s2 & Hl & H).
    injection H as <-. constructor.
    + exists s. rewrite Hx. reflexivity.
    + apply (IH s1). rewrite Hl. reflexivity.
Qed.

Lemma all_rows_inv (parts : list arr) (ts : list (list (list string))) :
  all_rows parts = Some ts -> parts = map A2 ts.
Proof.
  revert ts. induction parts as [|[xs|r] ps IH]; intros ts H; simpl in H.
  - injection H as <-. reflexivity.
  - discriminate H.
  - destruct (all_rows ps) as [ts'|] eqn:E; [|discriminate H].
    injection H as <-. simpl. f_equal. apply IH. reflexivity.
Qed.

Lemma fold_hcat_gen (ts : list (list (list string))) :
  forall acc, length acc = 65 -> Forall (fun t => length t = 65) ts ->
  length (fold_left hcat ts acc) = 65 /\
  forall j, nth j (fold_left hcat ts acc) [] = nth j acc [] ++ flat_map (fun t => nth j t []) ts.
Proof.
  induction ts as [|t ts IH]; intros acc Ha Ht.
  - split; [exact Ha|]. intros j. rewrite app_nil_r. reflexivity.
  - inversion Ht as [|? ? Ht0 Hts]; subst. cbn [fold_left flat_map].
    destruct (ParseLemmas.hcat_spec acc t) as [L N]; [congruence|].
    destruct (IH (hcat acc t)) as [L' N']; [congruence|exact Hts|].
    split; [exact L'|]. intros j. rewrite N', N, app_assoc. reflexivity.
Qed.

(** A region table: 65 rows of [n] values, the last one all [region]. *)
Definition region_shaped (region : string) (t : list (list string)) : Prop :=
  length t = 65 /\ (forall row, In row t -> length row = length (nth 0 t [])) /\
  (forall x, In x (nth 64 t []) -> x = region).

Lemma flat_map_row_length (ts : list (list (list string))) (j j' : nat) (region : string) :
  Forall (region_shaped region) ts -> j < 65 -> j' < 65 ->
  length (flat_map (fun t => nth j t []) ts) = length (flat_map (fun t => nth j' t []) ts).
Proof.
  intros H Hj Hj'. induction H as [|t ts (L & R & _) _ IH]; [reflexivity|].
  cbn [flat_map]. rewrite !length_app, IH.
  rewrite (R (nth j t [])) by (apply nth_In; lia).
  rewrite (R (nth j' t [])) by (apply nth_In; lia). reflexivity.
Qed.

Lemma hcat_shaped (region : string) (t0 : list (list string)) (ts : list (list (list string))) :
  region_shaped region t0 -> Forall (region_shaped region) ts ->
  region_shaped region (fold_left hcat ts t0).
Proof.
  intros H0 Hts. destruct H0 as (L0 & R0 & M0).
  destruct (fold_hcat_gen ts t0 L0) as [L N].
  { eapply Forall_impl; [exact Hts|]. intros t (Lt & _ & _). exact Lt. }
  split; [exact L|]. split.
  - intros row Hrow. apply (In_nth _ _ []) in Hrow. destruct Hrow as (j & Hj & <-).
    rewrite L in Hj. rewrite !N, !length_app.
    rewrite (R0 (nth j t0 [])) by (apply nth_In; lia).
    rewrite (flat_map_row_length ts j 0 region Hts) by lia. reflexivity.
  - intros x Hx. rewrite N in Hx. apply in_app_or in Hx. destruct Hx as [Hx|Hx]; [exact (M0 x Hx)|].
    apply in_flat_map in Hx. destruct Hx as (t & Ht & Hx).
    rewrite List.Forall_forall in Hts. destruct (Hts t Ht) as (_ & _ & Mt). exact (Mt x Hx).
Qed.

Lemma parse_region_data_shape fl fz (region : string) (s : state) (h : list string) (a : arr) :
  snd (parse_region_data fl fz region s) = inr (PyPair h a) ->
  h = header /\
  exists rows, a = A2 rows /\ length rows = 65 /\
    (forall row, In row rows -> length row = length (nth 0 rows [])) /\
    (forall x, In x (nth 64 rows []) -> x = region).
Proof.
  intros H. unfold parse_region_data in H. rewrite ParseLemmas.bind_get in H.
  apply ParseLemmas.bind_inr in H. destruct H as (u & s1 & _ & H).
  destruct (assoc_get region region_file) as [csv|] eqn:Er.
  2: { unfold bind, warn, modify, ret in H. discriminate H. }
  rewrite ParseLemmas.bind_get in H.
  apply ParseLemmas.bind_inr in H. destruct H as (parts & s2 & Hm & H).
  apply ParseLemmas.bind_inr in H. destruct H as (a' & s3 & Hc & H).
  unfold ret in H. injection H as <- <-. split; [reflexivity|].
  unfold lift in Hc. injection Hc as _ Hc.
  assert (Hp : Forall (fun p => (exists t, p = A2 t /\ region_shaped region t) \/ p = A1 []) parts).
  { assert (HF := mapM_inr _ _ s1 parts ltac:(rewrite Hm; reflexivity)).
    clear -HF. induction HF as [|zip_fname p l' k' (s' & Hs') _ IH]; constructor; [|exact IH].
    destruct (parse_zip_file_shape _ _ _ _ Hs')
      as (entries & csv' & _ & _ & [(_ & ->)|(lines & rows & _ & -> & _ & L & R & M)]);
      [right; reflexivity|left].
    exists rows. split; [reflexivity|]. split; [exact L|].
    assert (R0 : length (nth 0 rows []) = length (List.filter has_values lines))
      by (apply R, nth_In; lia).
    split; [intros row Hrow; rewrite R0; exact (R row Hrow)|].
    rewrite M. intros x Hx. exact (repeat_spec _ _ _ Hx). }
  unfold concatenate1 in Hc.
  destruct (all_rows parts) as [[|r0 rs]|] eqn:Ea; try discriminate Hc.
  destruct (forallb _ rs); [|discriminate Hc]. injection Hc as <-.
  apply all_rows_inv in Ea. subst parts.
  cbn [map] in Hp. inversion Hp as [|? ? H0 Hrs]; subst.
  assert (S0 : region_shaped region r0) by (destruct H0 as [(t & [= <-] & St)|[=]]; exact St).
  assert (Srs : Forall (region_shaped region) rs).
  { rewrite List.Forall_forall. intros t Ht. rewrite List.Forall_forall in Hrs.
    destruct (Hrs (A2 t) (in_map A2 _ _ Ht)) as [(t' & [= <-] & St)|[=]]. exact St. }
  exists (fold_left hcat rs r0). split; [reflexivity|].
  exact (hcat_shaped region r0 rs S0 Srs).
Qed.

End ShapeLemmas.

(** X8: [__parse_zip_file] returns only two kinds of value: the empty array,
    when the region's CSV entry is missing from the archive, or a table of
    65 rows (the 64 columns and the region marker row), each row holding
    one value per line of the entry that carries values (blank and
    comment-only lines are skipped), the last row being the region code
    repeated; an entry with fewer than two such lines never yields a table. *)
Theorem parse_zip_file_result (zip_fname region : string) (s : state) (a : arr) :
  snd (parse_zip_file zip_fname region s) = inr a ->
  exists entries csv_name,
    file_at zip_fname (files s) = Some (FZip entries) /\
    assoc_get region region_file = Some csv_name /\
    ((assoc_get csv_name entries = None /\ a = A1 []) \/
     (exists lines rows,
        assoc_get csv_name entries = Some lines /\ a = A2 rows /\
        2 <= length (List.filter has_values lines) /\ length rows = 65 /\
        (forall row, In row rows -> length row = length (List.filter has_values lines)) /\
        nth 64 rows [] = repeat region (length (List.filter has_values lines)))).
Proof. apply ShapeLemmas.parse_zip_file_shape. Qed.

Lemma parse_zip_file_result_witness :
  snd (parse_zip_file "datagis-2020.zip" "PHA" commented_state)
    = inr (arr_of (snd (parse_zip_file "datagis-2020.zip" "PHA" commented_state))) /\
  exists entries csv_name,
    file_at "datagis-2020.zip" (files commented_state) = Some (FZip entries) /\
    assoc_get "PHA" region_file = Some csv_name /\
    ((assoc_get csv_name entries = None /\
      arr_of (snd (parse_zip_file "datagis-2020.zip" "PHA" commented_state)) = A1 []) \/
     (exists lines rows,
        assoc_get csv_name entries = Some lines /\
        arr_of (snd (parse_zip_file "datagis-2020.zip" "PHA" commented_state)) = A2 rows /\
        2 <= length (List.filter has_values lines) /\ length rows = 65 /\
        (forall row, In row rows -> length row = length (List.filter has_values lines)) /\
        nth 64 rows [] = repeat "PHA" (length (List.filter has_values lines)))).
Proof.
  assert (H : snd (parse_zip_file "datagis-2020.zip" "PHA" commented_state)
    = inr (arr_of (snd (parse_zip_file "datagis-2020.zip" "PHA" commented_state))))
    by (vm_compute; reflexivity).
  split; [exact H|]. exact (parse_zip_file_result _ _ _ _ H).
Defined.

(** X9: A line of the region's CSV entry that carries values but fewer than
    64 fields makes [__parse_zip_file] raise before anything else happens,
    leaving the state as it was: [IndexError] when the first line with
    values is that short (the converters are tested on its fields),
    [ValueError] otherwise. *)
Theorem parse_zip_file_short_line (zip_fname region csv_name : string) (s : state)
    (entries : list (string * list string)) (lines : list string) (line : string) :
  file_at zip_fname (files s) = Some (FZip entries) ->
  assoc_get region region_file = Some csv_name ->
  assoc_get csv_name entries = Some lines ->
  In line lines -> 0 < length (split_line line) < 64 ->
  parse_zip_file zip_fname region s =
  (s, inl (if Nat.ltb (length (split_line (hd "" (List.filter has_values lines)))) 64
           then IndexError "list index out of range"
           else ValueError "Some errors were detected")).
Proof.
  intros Ef Er El Hin Hshort.
  unfold parse_zip_file. rewrite ParseLemmas.bind_get, Ef, Er, El.
  unfold bind, lift. rewrite (ParseLemmas.genfromtxt_short lines line Hin Hshort).
  reflexivity.
Qed.

Lemma parse_zip_file_short_line_witness :
  parse_zip_file "datagis-2020.zip" "PHA" short_line_state
  = (short_line_state, inl (ValueError "Some errors were detected")).
Proof.
  apply (parse_zip_file_short_line "datagis-2020.zip" "PHA" "00.csv" short_line_state
           [("00.csv", [line_long_id; "1;2"])] [line_long_id; "1;2"] "1;2");
    [reflexivity|reflexivity|reflexivity|simpl; auto|vm_compute; lia].
Defined.

(** X10: [parse_region_data] changes the folder only by downloading: when the
    folder exists and its first listed file matches [re_zip] the files
    are left as they are, otherwise they are those [download_data] leaves. *)
Theorem parse_region_data_folder fl fz (region : string) (s : state) :
  files (fst (parse_region_data fl fz region s))
  = if folder_exists s && folder_contains_zip s then files s
    else files (fst (download_data fl fz s)).
Proof.
  unfold parse_region_data. rewrite ParseLemmas.bind_get.
  rewrite ParseLemmas.bind_frame_after.
  - destruct (folder_exists s && folder_contains_zip s); reflexivity.
  - intros _. unfold warn. CacheFacts.frame_tac. apply ParseLemmas.parse_zip_file_files.
Qed.

(** X11: [download_data] creates the folder and stores, under the file name of
    each URL the selector yields, the archive served for it (the last such
    URL when names repeat); every other file is left as it was. *)
Theorem download_data_files fl fz (s : state) (name : string) :
  folder_exists (fst (download_data fl fz s)) = true /\
  file_at name (files (fst (download_data fl fz s)))
  = match last_url_for name (get_latest_zip_urls fl) with
    | Some u => Some (FZip (fz u))
    | None => file_at name (files s)
    end.
Proof.
  split; [apply ParseLemmas.download_data_folder|].
  unfold download_data. unfold bind at 1, modify at 1. cbn [fst snd].
  rewrite ParseLemmas.iterM_download_files. reflexivity.
Qed.

(** X12: When the parse of a region that is neither in memory nor on disk
    raises, [get_list([region])] raises the same exception in the same
    state: no cache artifact is written and the memory map is not filled. *)
Theorem get_list_parse_error fl fz (region : string) (s s1 : state) (e : exn) :
  mem_data s !! region = None ->
  file_at (cache_name region) (files s) = None ->
  parse_region_data fl fz region s = (s1, inl e) ->
  get_list fl fz [region] s = (s1, inl e).
Proof.
  intros Hm Hf Hp.
  assert (Hg : get_region_data fl fz region s = (s1, inl e)).
  { unfold get_region_data, bind, get_state. cbv beta iota. rewrite Hm, Hf, Hp. reflexivity. }
  rewrite ParseLemmas.get_list_eq, ParseLemmas.mapM_single, ParseLemmas.region_table_eq, Hg.
  reflexivity.
Qed.

Lemma get_list_parse_error_witness :
  get_list no_links no_zip ["PHA"] two_archives_state
  = (fst (parse_region_data no_links no_zip "PHA" two_archives_state),
     inl (ValueError "all the input arrays must have same number of dimensions")).
Proof.
  apply get_list_parse_error; vm_compute; reflexivity.
Defined.

(** X13: For a region outside the fourteen, neither in memory nor on disk,
    [get_list([region])] raises [TypeError] (it subscripts the [None] the
    parse returns) after writing [None] to the region's cache artifact;
    from then on every new instance over that folder raises [TypeError]
    for it straight from the artifact, without parsing again. *)
Theorem get_list_unknown_region_poisons_cache fl fz (region : string) (s : state) :
  assoc_get region region_file = None ->
  mem_data s !! region = None ->
  file_at (cache_name region) (files s) = None ->
  snd (get_list fl fz [region] s)
    = inl (TypeError "'NoneType' object is not subscriptable") /\
  file_at (cache_name region) (files (fst (get_list fl fz [region] s)))
    = Some (FCache PyNone) /\
  (forall s', file_at (cache_name region) (files s') = Some (FCache PyNone) ->
     mem_data s' !! region = None ->
     get_list fl fz [region] s'
     = (s', inl (TypeError "'NoneType' object is not subscriptable"))).
Proof.
  intros Hu Hm Hf.
  destruct (ParseLemmas.parse_unknown fl fz region s Hu) as [s1 Hp].
  rewrite ParseLemmas.get_list_eq, ParseLemmas.mapM_single, ParseLemmas.region_table_eq,
    (CacheFacts.get_region_data_cold fl fz region s s1 PyNone Hm Hf Hp).
  split; [reflexivity|]. split; [apply CacheFacts.file_at_write|].
  intros s' Hf' Hm'.
  rewrite ParseLemmas.get_list_eq, ParseLemmas.mapM_single, ParseLemmas.region_table_eq,
    (CacheFacts.get_region_data_disk_hit fl fz region s' PyNone Hm' Hf').
  reflexivity.
Qed.

Lemma get_list_unknown_region_poisons_cache_witness :
  snd (get_list no_links no_zip ["XYZ"] fresh_state)
    = inl (TypeError "'NoneType' object is not subscriptable") /\
  file_at (cache_name "XYZ") (files (fst (get_list no_links no_zip ["XYZ"] fresh_state)))
    = Some (FCache PyNone) /\
  (forall s', file_at (cache_name "XYZ") (files s') = Some (FCache PyNone) ->
     mem_data s' !! "XYZ" = None ->
     get_list no_links no_zip ["XYZ"] s'
     = (s', inl (TypeError "'NoneType' object is not subscriptable"))).
Proof. apply get_list_unknown_region_poisons_cache; vm_compute; reflexivity. Defined.

(** X14: When every requested region is served from its cache artifact (none is
    in memory), [get_list] leaves the state alone and returns the fixed
    header with a 65-row table whose every row joins the regions' rows in
    the order requested: the record counts add up and each record keeps
    its region marker. *)
Theorem get_list_warm_cache fl fz (regions : list string) (s : state)
    (hdr : string -> list string) (tbl : string -> list (list string)) :
  regions <> [] ->
  (forall r, In r regions ->
     mem_data s !! r = None /\
     file_at (cache_name r) (files s) = Some (FCache (PyPair (hdr r) (A2 (tbl r)))) /\
     length (tbl r) = 65) ->
  exists rows,
    get_list fl fz regions s = (s, inr (header, A2 rows)) /\
    length rows = 65 /\
    forall j, nth j rows [] = flat_map (fun r => nth j (tbl r) []) regions.
Proof.
  intros Hne H. destruct regions as [|r0 rs]; [contradiction|].
  rewrite ParseLemmas.get_list_eq.
  rewrite (ParseLemmas.mapM_region_table_warm fl fz (r0 :: rs) s hdr tbl)
    by (intros r Hr; destruct (H r Hr) as (? & ? & _); split; assumption).
  assert (H0 : length (tbl r0) = 65) by (apply H; left; reflexivity).
  assert (Hrs : forall r, In r rs -> length (tbl r) = 65) by (intros r Hr; apply H; right; exact Hr).
  unfold concatenate1. cbn [map all_rows]. rewrite ParseLemmas.all_rows_A2. cbn [option_map].
  rewrite (ParseLemmas.forallb_65 tbl r0 rs H0 Hrs).
  destruct (ParseLemmas.fold_hcat tbl rs (tbl r0) H0 Hrs) as [L N].
  exists (fold_left hcat (map tbl rs) (tbl r0)).
  split; [reflexivity|]. split; [exact L|]. intros j. rewrite N. reflexivity.
Qed.

Lemma get_list_warm_cache_witness :
  exists rows,
    get_list no_links no_zip ["PHA"; "STC"] warm_state = (warm_state, inr (header, A2 rows)) /\
    length rows = 65 /\
    forall j, nth j rows [] = flat_map (fun r => nth j (cached_table warm_state r) [])
                                       ["PHA"; "STC"].
Proof.
  apply (get_list_warm_cache no_links no_zip ["PHA"; "STC"] warm_state
           (cached_header warm_state) (cached_table warm_state)); [discriminate|].
  intros r [<-|[<-|[]]]; vm_compute; repeat split; reflexivity.
Defined.

(** X15: [get_accidents_count] on a rectangular table of at least 65 rows counts
    every record exactly once: the count stored for a year (the first four
    characters of column 3) and a region (row 64) is the number of records
    with that year and region, and no stored count is zero. *)
Theorem get_accidents_count_counts (h : list string) (rows : list (list string)) :
  65 <= length rows ->
  (forall row, In row rows -> length row = length (hd [] rows)) ->
  exists count,
    get_accidents_count (h, A2 rows) = inr count /\
    (forall y r,
       default 0 (count !! y ≫= (fun inner => inner !! r))
       = length (List.filter (fun idx => String.eqb (record_year rows idx) y
                                         && String.eqb (record_region rows idx) r)
                             (seq 0 (length (hd [] rows))))) /\
    (forall y inner r k, count !! y = Some inner -> inner !! r = Some k -> 0 < k).
Proof.
  intros Hlen Hrect.
  exists (fold_left (ParseLemmas.count_step rows) (seq 0 (length (hd [] rows))) ∅).
  split; [|split].
  - unfold get_accidents_count. cbn [snd].
    apply ParseLemmas.count_loop_fold; [exact Hlen|exact Hrect|].
    intros idx Hidx. apply in_seq in Hidx. lia.
  - intros y r. rewrite ParseLemmas.count_fold_lookup. rewrite lookup_empty. reflexivity.
  - apply ParseLemmas.count_fold_positive.
    intros y inner r k Hy. rewrite lookup_empty in Hy. discriminate.
Qed.

Lemma get_accidents_count_counts_witness :
  exists count,
    get_accidents_count (header, A2 merged_rows) = inr count /\
    (forall y r,
       default 0 (count !! y ≫= (fun inner => inner !! r))
       = length (List.filter (fun idx => String.eqb (record_year merged_rows idx) y
                                         && String.eqb (record_region merged_rows idx) r)
                             (seq 0 (length (hd [] merged_rows))))) /\
    (forall y inner r k, count !! y = Some inner -> inner !! r = Some k -> 0 < k).
Proof.
  apply get_accidents_count_counts; [vm_compute; lia|].
  assert (Hb : forallb (fun row => Nat.eqb (length row) (length (hd [] merged_rows)))
                       merged_rows = true) by (vm_compute; reflexivity).
  intros row Hrow. rewrite forallb_forall in Hb. apply Nat.eqb_eq, Hb, Hrow.
Defined.

(** X16: A table that [parse_region_data] returns comes with the fixed header
    and has 65 rows of one common length (the records), and every value of
    its last row is the requested region code. *)
Theorem parse_region_data_table fl fz (region : string) (s : state)
    (h : list string) (a : arr) :
  snd (parse_region_data fl fz region s) = inr (PyPair h a) ->
  h = header /\
  exists rows, a = A2 rows /\ length rows = 65 /\
    (forall row, In row rows -> length row = length (nth 0 rows [])) /\
    (forall x, In x (nth 64 rows []) -> x = region).
Proof. apply ShapeLemmas.parse_region_data_shape. Qed.

Lemma parse_region_data_table_witness :
  snd (parse_region_data no_links no_zip "PHA" fresh_state)
    = inr (PyPair header (pyval_arr parsed_pha)) /\
  header = header /\
  exists rows, pyval_arr parsed_pha = A2 rows /\ length rows = 65 /\
    (forall row, In row rows -> length row = length (nth 0 rows [])) /\
    (forall x, In x (nth 64 rows []) -> x = "PHA").
Proof.
  assert (H : snd (parse_region_data no_links no_zip "PHA" fresh_state)
    = inr (PyPair header (pyval_arr parsed_pha))) by (vm_compute; reflexivity).
  split; [exact H|]. exact (parse_region_data_table _ _ _ _ _ _ H).
Defined.
